(** * fast-neural-style: the training driver [neural_style.py]

    A shallow embedding of [train], [check_paths], [stylize] and [main].
    Python floats are IEEE binary64 values ([PrimFloat.float]), Python
    ints are [Z], tensors with a leading batch dimension are lists of
    per-sample rows.  Printing, the file system, the wall clock,
    exceptions and [sys.exit] are threaded through a small monad.  The
    collaborators that live outside the file ([utils], [TransformerNet],
    [Vgg16], the torch primitives) are the fields of the class [Torch]. *)

From Stdlib Require Import ZArith List String Ascii Bool Floats Lia.
From Stdlib Require Import DecimalString.
Import ListNotations.

Local Open Scope string_scope.
Local Open Scope list_scope.
Local Open Scope Z_scope.

Set Implicit Arguments.

(** ** Python runtime *)

Inductive exn : Type :=
| IndexError
| ZeroDivisionError
| AttributeError
| AssertionError
| ValueError (msg : string)
| RuntimeError (msg : string)
| OSError (msg : string)
| IOError (msg : string).

(** What a statement can do: fall through with a value, raise, or leave
    the process through [sys.exit]. *)
Inductive outcome (A : Type) : Type :=
| Return (a : A)
| Raise (e : exn)
| Exit (code : Z).

Arguments Return {A} a.
Arguments Raise {A} e.
Arguments Exit {A} code.

(** Values shown by [print]. *)
Inductive value : Type :=
| VInt (z : Z)
| VFloat (f : float)
| VStr (s : string)
| VNone
| VExn (e : exn).

(** The training log line of [train], before [str.format] lays it out. *)
Record log_line : Type := mkLog {
  log_time : string;
  log_epoch : Z;
  log_count : Z;
  log_total : Z;
  log_content : float;
  log_style : float;
  log_sum : float
}.

Inductive line : Type :=
| Print (vs : list value)
| Mesg (m : log_line).

(** ** The world: standard output, the file system, the clock *)

Section World.

(** [Obj] is what [torch.save] pickles. *)
Variable Obj : Type.

Record FileSystem : Type := mkFS {
  dirs : list string;
  files : list (string * Obj)
}.

Record World : Type := mkWorld {
  stdout : list line;
  fs : FileSystem;
  ticks : nat
}.

Definition M (A : Type) : Type := World -> outcome A * World.

Definition ret {A} (a : A) : M A := fun w => (Return a, w).

Definition bind {A B} (c : M A) (k : A -> M B) : M B :=
  fun w =>
    match c w with
    | (Return a, w') => k a w'
    | (Raise e, w') => (Raise e, w')
    | (Exit n, w') => (Exit n, w')
    end.

Definition raise {A} (e : exn) : M A := fun w => (Raise e, w).

Definition sys_exit {A} (code : Z) : M A := fun w => (Exit code, w).

(** [try: c except OSError as e: h e]: only [OSError] is caught. *)
Definition try_except_OSError {A} (c : M A) (h : exn -> M A) : M A :=
  fun w =>
    match c w with
    | (Raise (OSError m), w') => h (OSError m) w'
    | r => r
    end.

Definition lift {A} (r : exn + A) : M A :=
  match r with
  | inl e => raise e
  | inr a => ret a
  end.

Definition print (vs : list value) : M unit :=
  fun w => (Return tt, mkWorld (stdout w ++ [Print vs]) (fs w) (ticks w)).

Definition print_mesg (m : log_line) : M unit :=
  fun w => (Return tt, mkWorld (stdout w ++ [Mesg m]) (fs w) (ticks w)).

End World.

Arguments ret {Obj A} a.
Arguments raise {Obj A} e.
Arguments sys_exit {Obj A} code.
Arguments print {Obj} vs.
Arguments print_mesg {Obj} m.
Arguments mkFS {Obj} dirs files.

Declare Scope py_scope.
Delimit Scope py_scope with py.
Notation "x <- c ;; k" := (bind c (fun x => k))
  (at level 100, c at next level, right associativity) : py_scope.
Notation "c ;;; k" := (bind c (fun _ => k))
  (at level 100, right associativity) : py_scope.
Local Open Scope py_scope.

(** [for a in l: body], the loop state passed along. *)
Fixpoint for_each {Obj A S} (l : list A) (body : A -> S -> M Obj S) (s : S)
  : M Obj S :=
  match l with
  | [] => ret s
  | a :: l' => s' <- body a s ;; for_each l' body s'
  end.

(** [enumerate(l)] from a start index. *)
Fixpoint enumerate_from {A} (i : Z) (l : list A) : list (Z * A) :=
  match l with
  | [] => []
  | a :: l' => (i, a) :: enumerate_from (i + 1) l'
  end.

Definition enumerate {A} (l : list A) : list (Z * A) := enumerate_from 0 l.

(** [range(n)]. *)
Definition range (n : Z) : list Z := map Z.of_nat (seq 0 (Z.to_nat n)).

(** ** Strings *)

Definition str_int (z : Z) : string := NilZero.string_of_int (Z.to_int z).

(** [s.replace(' ', '_')]. *)
Fixpoint replace_space (s : string) : string :=
  match s with
  | EmptyString => EmptyString
  | String c s' =>
      String (if Ascii.eqb c " "%char then "_"%char else c) (replace_space s')
  end.

Definition ends_with_slash (s : string) : bool :=
  match get (String.length s - 1) s with
  | Some c => Ascii.eqb c "/"%char
  | None => false
  end.

(** [os.path.join(a, b)] on a POSIX system. *)
Definition path_join (a b : string) : string :=
  match b with
  | String "/"%char _ => b
  | _ => if (a =? "")%string || ends_with_slash a then (a ++ b)%string else (a ++ "/" ++ b)%string
  end.

(** [t] occurs in [s]. *)
Definition contains (s t : string) : Prop :=
  exists pre post, s = (pre ++ t ++ post)%string.

(** ** Python floats *)

(** [float(n)] for the batch counts that divide the running sums; exact
    below 2^53. *)
Definition float_of_int (z : Z) : float := PrimFloat.of_uint63 (Uint63.of_Z z).

Definition fadd : float -> float -> float := PrimFloat.add.
Definition fdiv : float -> float -> float := PrimFloat.div.
Definition fzero : float := PrimFloat.zero.

(** ** Command line *)

(** The namespace of the [train] subcommand.  [train] assigns [cuda]. *)
Record Args : Type := mkArgs {
  batch_size : Z;
  epochs : Z;
  vgg_model_dir : string;
  seed : Z;
  cuda : Z;
  dataset : string;
  image_size : Z;
  style_size : option Z;
  lr : float;
  style_image : string;
  content_weight : float;
  style_weight : float;
  log_interval : Z;
  save_model_dir : string
}.

Definition set_cuda (a : Args) (c : Z) : Args :=
  mkArgs (batch_size a) (epochs a) (vgg_model_dir a) (seed a) c (dataset a)
    (image_size a) (style_size a) (lr a) (style_image a) (content_weight a)
    (style_weight a) (log_interval a) (save_model_dir a).

(** The namespace of the [eval] subcommand. *)
Record EvalArgs : Type := mkEvalArgs {
  content_image : string;
  content_scale : option float;
  output_image : string;
  model : string
}.

(** What [parse_args] hands to [main]: [args.subcommand] is [None],
    ["train"] or ["eval"]. *)
Inductive Namespace : Type :=
| NoSubcommand
| TrainCommand (a : Args)
| EvalCommand (a : EvalArgs).

(** Python truth of an int. *)
Definition truthy (z : Z) : bool := negb (z =? 0).

(** ** torch.utils.data.DataLoader *)

Module Loader.

Section Loader.
Variable A : Type.

(** [kwargs] of [train]: [{}] or [{'num_workers': 0, 'pin_memory': False}]. *)
Record kwargs : Type := mkKwargs {
  kw_num_workers : option Z;
  kw_pin_memory : option bool
}.

Definition no_kwargs : kwargs := mkKwargs None None.

Record DataLoader : Type := mkDataLoader {
  dl_dataset : list A;
  dl_batch_size : Z;
  dl_shuffle : bool;
  dl_num_workers : Z;
  dl_pin_memory : bool
}.

(** [DataLoader(dataset, batch_size=bs, **kw)]: the arguments the call
    leaves out take torch's defaults, [shuffle=False] among them. *)
Definition make (ds : list A) (bs : Z) (kw : kwargs) : DataLoader :=
  mkDataLoader ds bs false
    (match kw_num_workers kw with Some n => n | None => 0 end)
    (match kw_pin_memory kw with Some b => b | None => false end).

(** torch's [BatchSampler.__iter__] with [drop_last=False]: indices are
    appended to [batch]; a batch is yielded when its length reaches the
    batch size, and what is left at the end is yielded if not empty. *)
Fixpoint batch_sampler (bs : Z) (batch : list nat) (sampler : list nat)
  : list (list nat) :=
  match sampler with
  | [] => match batch with [] => [] | _ => [batch] end
  | idx :: rest =>
      let batch' := batch ++ [idx] in
      if Z.of_nat (List.length batch') =? bs
      then batch' :: batch_sampler bs [] rest
      else batch_sampler bs batch' rest
  end.

(** The index order: [RandomSampler] when [shuffle], else
    [SequentialSampler]. *)
Definition sampler (perm : nat -> list nat) (dl : DataLoader) : list nat :=
  if dl_shuffle dl then perm (List.length (dl_dataset dl))
  else seq 0 (List.length (dl_dataset dl)).

Definition fetch (ds : list A) (idxs : list nat) : list A :=
  flat_map (fun i => match nth_error ds i with Some a => [a] | None => [] end)
    idxs.

(** One pass over the loader; [perm n] is the permutation of [0..n-1]
    the random generator would draw for this pass. *)
Definition iter (perm : nat -> list nat) (dl : DataLoader) : list (list A) :=
  map (fetch (dl_dataset dl))
    (batch_sampler (dl_batch_size dl) [] (sampler perm dl)).

End Loader.

End Loader.

(** ** torch.autograd.Variable *)

Record Var (T : Type) : Type := mkVariable {
  data : T;
  requires_grad : bool;
  volatile : bool
}.

(** [Variable(t)], [Variable(t, volatile=True)] and
    [Variable(t, requires_grad=False)]. *)
Definition Variable_new {T} (t : T) : Var T := mkVariable t false false.
Definition Variable_volatile {T} (t : T) : Var T := mkVariable t false true.
Definition Variable_no_grad {T} (t : T) : Var T := mkVariable t false false.

(** The result of a module with trainable weights applied to [v]: part
    of the graph unless [v] is volatile. *)
Definition module_output {T U} (v : Var T) (u : U) : Var U :=
  mkVariable u (negb (volatile v)) (volatile v).

(** A differentiable operation without weights applied to [v]; slicing
    is one. *)
Definition var_apply {T U} (f : T -> U) (v : Var T) : Var U :=
  mkVariable (f (data v)) (requires_grad v) (volatile v).

(** An operation applied to [v] in place. *)
Definition in_place {T} (f : T -> T) (v : Var T) : Var T := var_apply f v.

Inductive Device : Type := CPU | GPU.

(** ** Collaborators outside the file *)

Class Torch : Type := {
  (** one sample of an image batch, of a feature batch, of a Gram batch *)
  Image : Type;
  Feat : Type;
  GramM : Type;
  (** a one-element tensor wrapped in a Variable *)
  Loss : Type;
  Params : Type;
  Grad : Type;
  OptState : Type;
  StateDict : Type;

  (** the machine *)
  cuda_is_available : bool;
  time_ctime : nat -> string;
  sys_version : string;
  torch_version : string;
  str_float : float -> string;
  makedirs_error : string -> option string;
  save_error : string -> option string;
  randperm : Z -> Z -> nat -> list nat;

  (** torchvision and [utils] input *)
  ImageFolder : string -> Z -> exn + list (Image * Z);
  tensor_load_rgbimage : string -> option Z -> option float -> exn + Image;
  (** [utils.init_vgg16(model_folder)] works on the file system: it
      may fetch and write weight files, whatever else the files hold,
      and it may raise *)
  init_vgg16 :
    forall Obj : Type,
      (StateDict -> Obj) -> string -> FileSystem Obj
      -> option exn * FileSystem Obj;
  tensor_repeat : Image -> Z -> exn + list Image;

  (** [utils] numerics *)
  preprocess_batch : list Image -> list Image;
  subtract_imagenet_mean_batch : list Image -> list Image;
  gram_matrix : list Feat -> list GramM;

  (** the two networks *)
  TransformerNet : Z -> Params;
  transformer_forward : Params -> bool -> list Image -> list Image;
  vgg_forward : StateDict -> list Image -> list (list Feat);

  (** [torch.nn.MSELoss] on tensors of equal size *)
  mse_feat : list Feat -> list Feat -> Loss;
  mse_gram : list GramM -> list GramM -> Loss;

  (** arithmetic of scalar Variables: [c * v], [v + c], [v + v'],
      [v.data[0]] *)
  smul : float -> Loss -> Loss;
  ladd_const : Loss -> float -> Loss;
  ladd : Loss -> Loss -> Loss;
  item : Loss -> float;

  (** autograd and the optimizer *)
  Adam : Params -> float -> OptState;
  backward : (Params -> option Loss) -> Params -> Grad;
  Adam_step : OptState -> Params -> Grad -> OptState * Params
}.

(** ** Computations that only raise *)

Definition and_then {A B} (r : exn + A) (k : A -> exn + B) : exn + B :=
  match r with
  | inl e => inl e
  | inr a => k a
  end.

Notation "x <~ c ;; k" := (and_then c (fun x => k))
  (at level 100, c at next level, right associativity) : py_scope.

(** [l[i]] *)
Definition getitem {A} (l : list A) (i : nat) : exn + A :=
  match nth_error l i with
  | Some a => inr a
  | None => inl IndexError
  end.

(** A [for] loop whose body only raises. *)
Fixpoint for_sum {A S} (l : list A) (body : A -> S -> exn + S) (s : S)
  : exn + S :=
  match l with
  | [] => inr s
  | a :: l' => s' <~ body a s ;; for_sum l' body s'
  end.

(** [t.cuda()] moves a tensor and leaves its value. *)
Definition tensor_cuda {T} (t : T) : T := t.

Section Driver.

Context {torch : Torch}.

(** ** Modules and files *)

Record Transformer : Type := mkTransformer {
  params : Params;
  training : bool;
  device : Device
}.

Definition module_train (t : Transformer) : Transformer :=
  mkTransformer (params t) true (device t).
Definition module_eval (t : Transformer) : Transformer :=
  mkTransformer (params t) false (device t).
Definition module_cuda (t : Transformer) : Transformer :=
  mkTransformer (params t) (training t) GPU.
Definition module_cpu (t : Transformer) : Transformer :=
  mkTransformer (params t) (training t) CPU.

Record Vgg16 : Type := mkVgg16 {
  vgg_state : StateDict;
  vgg_device : Device
}.

Inductive file : Type :=
| Checkpoint (t : Transformer)
| Picture (i : Image)
| Weights (s : StateDict).

Definition Py (A : Type) : Type := M file A.

Definition ctime : Py string :=
  fun w => (Return (time_ctime (ticks w)),
            mkWorld (stdout w) (fs w) (S (ticks w))).

Definition fs_exists (f : FileSystem file) (p : string) : bool :=
  existsb (String.eqb p) (dirs f)
  || existsb (fun x => String.eqb p (fst x)) (files f).

(** [os.path.exists(p)] *)
Definition path_exists (p : string) : Py bool :=
  fun w => (Return (fs_exists (fs w) p), w).

(** [os.makedirs(p)]: whether it fails is the machine's to say; when
    it does not, [p] is there. *)
Definition makedirs (p : string) : Py unit :=
  fun w =>
    match makedirs_error p with
    | Some msg => (Raise (OSError msg), w)
    | None =>
        (Return tt,
         mkWorld (stdout w) (mkFS (p :: dirs (fs w)) (files (fs w))) (ticks w))
    end.

(** A file written at [p]: whether that fails (no such directory, no
    room) is the machine's to say. *)
Definition write_file (p : string) (f : file) : Py unit :=
  fun w =>
    match save_error p with
    | Some msg => (Raise (IOError msg), w)
    | None =>
        (Return tt,
         mkWorld (stdout w) (mkFS (dirs (fs w)) ((p, f) :: files (fs w)))
           (ticks w))
    end.

Definition torch_save (t : Transformer) (p : string) : Py unit :=
  write_file p (Checkpoint t).

Definition torch_load (p : string) : Py Transformer :=
  fun w =>
    match find (fun f => String.eqb p (fst f)) (files (fs w)) with
    | Some (_, Checkpoint t) => (Return t, w)
    | _ => (Raise (IOError p), w)
    end.

Definition tensor_save_bgrimage (i : Image) (p : string) : Py unit :=
  write_file p (Picture i).

(** [utils.init_vgg16(model_folder)]: the file system is what the
    collaborator leaves, also when it raises. *)
Definition utils_init_vgg16 (model_folder : string) : Py unit :=
  fun w =>
    let (err, f) := init_vgg16 Weights model_folder (fs w) in
    let w' := mkWorld (stdout w) f (ticks w) in
    match err with
    | Some e => (Raise e, w')
    | None => (Return tt, w')
    end.

(** [vgg.load_state_dict(torch.load(p))]: a checkpoint loads, and has
    no [items] to copy from; a file that is no pickle does not load. *)
Definition load_state_dict (p : string) : Py StateDict :=
  fun w =>
    match find (fun f => String.eqb p (fst f)) (files (fs w)) with
    | Some (_, Weights s) => (Return s, w)
    | Some (_, Checkpoint _) => (Raise AttributeError, w)
    | _ => (Raise (IOError p), w)
    end.

(** [np.random.seed(seed)]: numpy takes a seed of 32 bits. *)
Definition np_random_seed (seed : Z) : Py unit :=
  if (0 <=? seed) && (seed <? 2 ^ 32) then ret tt
  else raise (ValueError "Seed must be between 0 and 2**32 - 1").

(** [torch.manual_seed(seed)]: every seed numpy has accepted is one
    torch accepts. *)
Definition torch_manual_seed (seed : Z) : Py unit := ret tt.

(** ** Loss engine *)

(** [mse_loss(input, target)]: torch's criterions assert that the target
    does not require a gradient, and reject operands of different
    sizes. *)
Definition mse_loss {S} (mse : list S -> list S -> Loss)
  (input target : Var (list S)) : exn + Loss :=
  if requires_grad target then inl AssertionError
  else if Nat.eqb (List.length (data input)) (List.length (data target))
  then inr (mse (data input) (data target))
  else inl (RuntimeError "input and target have different sizes").

(** [vgg(v)]: one Variable per extractor layer. *)
Definition call_vgg (vgg : Vgg16) (v : Var (list Image))
  : list (Var (list Feat)) :=
  map (module_output v) (vgg_forward (vgg_state vgg) (data v)).

(** [style_loss += c]: the first addition finds the float [0.]. *)
Definition iadd (style_loss : float + Loss) (c : Loss) : float + Loss :=
  match style_loss with
  | inl z => inr (ladd_const c z)
  | inr s => inr (ladd s c)
  end.

(** [content_loss + style_loss] *)
Definition add_losses (content_loss : Loss) (style_loss : float + Loss)
  : Loss :=
  match style_loss with
  | inl z => ladd_const content_loss z
  | inr s => ladd content_loss s
  end.

(** [style_loss.data[0]]: a float has no [data]. *)
Definition loss_item (style_loss : float + Loss) : exn + float :=
  match style_loss with
  | inl _ => inl AttributeError
  | inr s => inr (item s)
  end.

(** Lines 108-110, the operand of [args.style_weight *]. *)
Definition style_mse (gram_style : list (Var (list GramM))) (n_batch : nat)
  (features_y : list (Var (list Feat))) (m : nat) : exn + Loss :=
  g <~ getitem gram_style m ;;
  let gram_s := Variable_no_grad (data g) in
  f <~ getitem features_y m ;;
  let gram_y := var_apply gram_matrix f in
  mse_loss mse_gram gram_y (var_apply (firstn n_batch) gram_s).

(** The body of [for m in range(len(features_y))]. *)
Definition style_term (args : Args) (gram_style : list (Var (list GramM)))
  (n_batch : nat) (features_y : list (Var (list Feat))) (m : nat)
  (style_loss : float + Loss) : exn + (float + Loss) :=
  l <~ style_mse gram_style n_batch features_y m ;;
  inr (iadd style_loss (smul (style_weight args) l)).

(** Lines 92-100: [(features_y, features_xc)]. *)
Definition extract (vgg : Vgg16) (x : Var (list Image))
  (transformer : Transformer)
  : list (Var (list Feat)) * list (Var (list Feat)) :=
  let y := module_output x
             (transformer_forward (params transformer) (training transformer)
                (data x)) in
  let xc := Variable_volatile (data x) in
  let y := in_place subtract_imagenet_mean_batch y in
  let xc := in_place subtract_imagenet_mean_batch xc in
  let features_y := call_vgg vgg y in
  let features_xc := call_vgg vgg xc in
  (features_y, features_xc).

(** Lines 102-104, the operand of [args.content_weight *]. *)
Definition content_mse (features_y features_xc : list (Var (list Feat)))
  : exn + Loss :=
  f1 <~ getitem features_xc 1 ;;
  let f_xc_c := Variable_no_grad (data f1) in
  fy1 <~ getitem features_y 1 ;;
  mse_loss mse_feat fy1 f_xc_c.

(** Lines 92-110 of [train]: from the preprocessed batch [x] to
    [(content_loss, style_loss)]. *)
Definition losses (args : Args) (vgg : Vgg16)
  (gram_style : list (Var (list GramM))) (n_batch : nat)
  (x : Var (list Image)) (transformer : Transformer)
  : exn + (Loss * (float + Loss)) :=
  let (features_y, features_xc) := extract vgg x transformer in
  l <~ content_mse features_y features_xc ;;
  let content_loss := smul (content_weight args) l in
  style_loss <~ for_sum (seq 0 (List.length features_y))
                  (style_term args gram_style n_batch features_y)
                  (inl fzero) ;;
  inr (content_loss, style_loss).

(** [total_loss] as a function of the transformer's weights: what
    [total_loss.backward()] differentiates. *)
Definition objective (args : Args) (vgg : Vgg16)
  (gram_style : list (Var (list GramM))) (n_batch : nat)
  (x : Var (list Image)) (transformer : Transformer) (p : Params)
  : option Loss :=
  match losses args vgg gram_style n_batch x
          (mkTransformer p (training transformer) (device transformer)) with
  | inr (content_loss, style_loss) => Some (add_losses content_loss style_loss)
  | inl _ => None
  end.

(** ** Training loop *)

(** What the epoch loop carries from batch to batch. *)
Record Trainer : Type := mkTrainer {
  transformer : Transformer;
  optimizer : OptState;
  gram_style : list (Var (list GramM))
}.

(** The locals of one epoch. *)
Record Running : Type := mkRunning {
  trainer : Trainer;
  agg_content_loss : float;
  agg_style_loss : float;
  count : Z
}.

(** Lines 119-126: the periodic log line. *)
Definition log (args : Args) (total : Z) (e batch_id : Z) (r : Running)
  : Py unit :=
  if log_interval args =? 0 then raise ZeroDivisionError
  else if (batch_id + 1) mod log_interval args =? 0 then
    now <- ctime ;;
    print_mesg
      (mkLog now (e + 1) (count r) total
         (fdiv (agg_content_loss r) (float_of_int (batch_id + 1)))
         (fdiv (agg_style_loss r) (float_of_int (batch_id + 1)))
         (fdiv (fadd (agg_content_loss r) (agg_style_loss r))
            (float_of_int (batch_id + 1))))
  else ret tt.

(** Lines 85-90: the batch as the loader yields it, turned into
    [n_batch] and the preprocessed Variable [x]. *)
Definition batch_input (args : Args) (xs : list (Image * Z))
  : nat * Var (list Image) :=
  let x := map fst xs in
  let n_batch := List.length x in
  let x := Variable_new (preprocess_batch x) in
  let x := if truthy (cuda args) then var_apply tensor_cuda x else x in
  (n_batch, x).

(** Lines 85-126: the body of [for batch_id, (x, _) in enumerate(...)].
    [optimizer.zero_grad()] clears the gradient of the batch before, so
    [backward] yields the gradient of this batch alone. *)
Definition train_batch (args : Args) (vgg : Vgg16) (total : Z) (e : Z)
  (item_ : Z * list (Image * Z)) (r : Running) : Py Running :=
  let (batch_id, xs) := item_ in
  let (n_batch, x) := batch_input args xs in
  let count := count r + Z.of_nat n_batch in
  let tr := transformer (trainer r) in
  let gs := gram_style (trainer r) in
  ls <- lift (losses args vgg gs n_batch x tr) ;;
  let (content_loss, style_loss) := ls in
  let grad := backward (objective args vgg gs n_batch x tr) (params tr) in
  let (opt', p') := Adam_step (optimizer (trainer r)) (params tr) grad in
  let tr' := mkTransformer p' (training tr) (device tr) in
  let agg_content_loss := fadd (agg_content_loss r) (item content_loss) in
  s <- lift (loss_item style_loss) ;;
  let agg_style_loss := fadd (agg_style_loss r) s in
  let r' := mkRunning (mkTrainer tr' opt' gs) agg_content_loss agg_style_loss
              count in
  log args total e batch_id r' ;;;
  ret r'.

(** Lines 80-84: the start of an epoch. *)
Definition start_epoch (t : Trainer) : Running :=
  mkRunning
    (mkTrainer (module_train (transformer t)) (optimizer t) (gram_style t))
    fzero fzero 0.

(** One pass over the loader, from a given state of the locals. *)
Definition run_batches (args : Args) (vgg : Vgg16) (total : Z) (e : Z)
  (batches : list (Z * list (Image * Z))) (r : Running) : Py Running :=
  for_each batches (train_batch args vgg total e) r.

(** Lines 79-126: the body of [for e in range(args.epochs)]. *)
Definition train_epoch (args : Args) (vgg : Vgg16)
  (train_loader : Loader.DataLoader (Image * Z)) (e : Z) (t : Trainer)
  : Py Trainer :=
  let total := Z.of_nat (List.length (Loader.dl_dataset train_loader)) in
  r <- run_batches args vgg total e
         (enumerate (Loader.iter (randperm (seed args) e) train_loader))
         (start_epoch t) ;;
  ret (trainer r).

(** Lines 23-25. *)
Definition select_backend (args : Args) : Py Args :=
  if truthy (cuda args) && negb cuda_is_available then
    print [VStr "WARNING: torch.cuda not available, using CPU."] ;;;
    ret (set_cuda args 0)
  else ret args.

(** Lines 27-31. *)
Definition loader_kwargs (args : Args) : Loader.kwargs :=
  if truthy (cuda args) then Loader.mkKwargs (Some 0) (Some false)
  else Loader.no_kwargs.

Definition value_of_size (o : option Z) : value :=
  match o with
  | Some z => VInt z
  | None => VNone
  end.

(** Lines 33-48. *)
Definition banner (args : Args) : Py unit :=
  print [VStr "====================="] ;;;
  now <- ctime ;;
  print [VStr "CURRENT TIME:"; VStr now] ;;;
  print [VStr "PYTHON VERSION:"; VStr sys_version] ;;;
  print [VStr "PYTORCH VERSION:"; VStr torch_version] ;;;
  print [VStr "BATCH SIZE:"; VInt (batch_size args)] ;;;
  print [VStr "EPOCHS:"; VInt (epochs args)] ;;;
  print [VStr "RANDOM SEED:"; VInt (seed args)] ;;;
  print [VStr "CUDA:"; VInt (cuda args)] ;;;
  print [VStr "LEARNING RATE:"; VFloat (lr args)] ;;;
  print [VStr "STYLE IMAGE:"; VStr (style_image args)] ;;;
  print [VStr "CONTENT WEIGHT:"; VFloat (content_weight args)] ;;;
  print [VStr "STYLE WEIGHT:"; VFloat (style_weight args)] ;;;
  print [VStr "DATASET:"; VStr (dataset args)] ;;;
  print [VStr "SAVE-MODEL DIRECTORY:"; VStr (save_model_dir args)] ;;;
  print [VStr "STYLE SIZE:"; value_of_size (style_size args)] ;;;
  print [VStr "=====================
"].

(** Lines 69-77: the style target. *)
Definition style_target (args : Args) (vgg : Vgg16)
  : exn + list (Var (list GramM)) :=
  style <~ tensor_load_rgbimage (style_image args) (style_size args) None ;;
  style <~ tensor_repeat style (batch_size args) ;;
  let style := preprocess_batch style in
  let style := if truthy (cuda args) then tensor_cuda style else style in
  let style_v := Variable_volatile style in
  let style_v := in_place subtract_imagenet_mean_batch style_v in
  let features_style := call_vgg vgg style_v in
  inr (map (var_apply gram_matrix) features_style).

(** Lines 131-132. *)
Definition save_model_filename (args : Args) (now : string) : string :=
  ("epoch_" ++ str_int (epochs args) ++ "_" ++ replace_space now ++ "_"
   ++ str_float (content_weight args) ++ "_" ++ str_float (style_weight args)
   ++ ".model")%string.

(** Line 55. *)
Definition make_train_loader (args : Args) (train_dataset : list (Image * Z))
  : Loader.DataLoader (Image * Z) :=
  Loader.make train_dataset (batch_size args) (loader_kwargs args).

(** What the set-up hands to the epoch loop. *)
Record Setup : Type := mkSetup {
  train_loader : Loader.DataLoader (Image * Z);
  vgg : Vgg16;
  start : Trainer
}.

(** Lines 50-77: data, the two networks, the optimizer, the style
    target.  The seed of lines 20-21 fixes the weights [TransformerNet]
    draws. *)
Definition initialize (args : Args) : Py Setup :=
  train_dataset <- lift (ImageFolder (dataset args) (image_size args)) ;;
  let train_loader := make_train_loader args train_dataset in
  let transformer := mkTransformer (TransformerNet (seed args)) true CPU in
  let optimizer := Adam (params transformer) (lr args) in
  utils_init_vgg16 (vgg_model_dir args) ;;;
  state <- load_state_dict (path_join (vgg_model_dir args) "vgg16.weight") ;;
  let vgg := mkVgg16 state CPU in
  let transformer :=
    if truthy (cuda args) then module_cuda transformer else transformer in
  let vgg := if truthy (cuda args) then mkVgg16 (vgg_state vgg) GPU else vgg in
  gram_style <- lift (style_target args vgg) ;;
  ret (mkSetup train_loader vgg (mkTrainer transformer optimizer gram_style)).

(** Lines 79-126. *)
Definition run_epochs (args : Args) (s : Setup) : Py Trainer :=
  for_each (range (epochs args))
    (train_epoch args (vgg s) (train_loader s)) (start s).

(** Lines 128-136. *)
Definition finalize (args : Args) (t : Trainer) : Py unit :=
  let transformer := module_cpu (module_eval (transformer t)) in
  now <- ctime ;;
  let save_model_path :=
    path_join (save_model_dir args) (save_model_filename args now) in
  torch_save transformer save_model_path ;;;
  print [VStr "
Done :)"].

(** Lines 23-48. *)
Definition preamble (args : Args) : Py Args :=
  args <- select_backend args ;;
  banner args ;;;
  ret args.

(** Lines 19-136.  The result is the namespace as [train] leaves it. *)
Definition train (args : Args) : Py Args :=
  np_random_seed (seed args) ;;;
  torch_manual_seed (seed args) ;;;
  args <- preamble args ;;
  s <- initialize args ;;
  t <- run_epochs args s ;;
  finalize args t ;;;
  ret args.

(** Lines 139-147. *)
Definition check_paths (args : Args) : Py unit :=
  try_except_OSError
    (e1 <- path_exists (vgg_model_dir args) ;;
     (if negb e1 then makedirs (vgg_model_dir args) else ret tt) ;;;
     e2 <- path_exists (save_model_dir args) ;;
     (if negb e2 then makedirs (save_model_dir args) else ret tt))
    (fun e => print [VExn e] ;;; sys_exit 1).

(** Lines 150-156. *)
Definition stylize (args : EvalArgs) : Py unit :=
  content <- lift (tensor_load_rgbimage (content_image args) None
                     (content_scale args)) ;;
  let content := [content] in
  let content := Variable_new (preprocess_batch content) in
  style_model <- torch_load (model args) ;;
  let output := module_output content
                  (transformer_forward (params style_model)
                     (training style_model) (data content)) in
  out0 <- lift (getitem (data output) 0) ;;
  tensor_save_bgrimage out0 (output_image args).

(** Lines 187-195: what [main] does with the namespace [parse_args]
    has returned at line 185. *)
Definition main (args : Namespace) : Py unit :=
  match args with
  | NoSubcommand =>
      print [VStr "ERROR: specify either train or eval"] ;;;
      sys_exit 1
  | TrainCommand a => check_paths a ;;; train a ;;; ret tt
  | EvalCommand a => stylize a
  end.

(** The status the process ends with. *)
Definition exit_code {A} (r : outcome A * World file) : Z :=
  match fst r with
  | Return _ => 0
  | Raise _ => 1
  | Exit n => n
  end.

End Driver.

(** ** What a run is compared with *)

Section Observed.

Context {torch : Torch}.

(** The scalars of one optimisation step: the content MSE before
    weighting, [content_loss] and [style_loss]. *)
Record Step : Type := mkStep {
  step_mse : Loss;
  step_content : Loss;
  step_style : Loss
}.

Definition batch_step (args : Args) (vgg : Vgg16) (xs : list (Image * Z))
  (t : Trainer) : option Step :=
  let (n_batch, x) := batch_input args xs in
  let (features_y, features_xc) := extract vgg x (transformer t) in
  match content_mse features_y features_xc,
        losses args vgg (gram_style t) n_batch x (transformer t) with
  | inr l, inr (c, inr s) => Some (mkStep l c s)
  | _, _ => None
  end.

(** The steps of the batches [run_batches] processes, in order. *)
Fixpoint epoch_steps (args : Args) (vgg : Vgg16) (total e : Z)
  (batches : list (Z * list (Image * Z))) (r : Running) (w : World file)
  : list Step :=
  match batches with
  | [] => []
  | b :: bs =>
      match batch_step args vgg (snd b) (trainer r),
            train_batch args vgg total e b r w with
      | Some st, (Return r', w') =>
          st :: epoch_steps args vgg total e bs r' w'
      | _, _ => []
      end
  end.

(** The namespace after lines 23-25. *)
Definition effective (args : Args) : Args :=
  if truthy (cuda args) && negb cuda_is_available then set_cuda args 0
  else args.

Definition warning : line :=
  Print [VStr "WARNING: torch.cuda not available, using CPU."].

Definition usage_error : line :=
  Print [VStr "ERROR: specify either train or eval"].

Definition done : line :=
  Print [VStr "
Done :)"].

(** The file system once [check_paths] is past [vgg_model_dir]. *)
Definition with_vgg_dir (args : Args) (f : FileSystem file)
  : FileSystem file :=
  if fs_exists f (vgg_model_dir args) then f
  else mkFS (vgg_model_dir args :: dirs f) (files f).

(** Where [train] saves when the clock shows tick [k]. *)
Definition save_model_path (args : Args) (k : nat) : string :=
  path_join (save_model_dir args) (save_model_filename args (time_ctime k)).

(** Python's [sum(l)] and [sum(l) / len(l)] on floats. *)
Definition fsum (l : list float) : float := fold_left fadd l fzero.

Definition mean (l : list float) : float :=
  fdiv (fsum l) (float_of_int (Z.of_nat (List.length l))).

(** The MSE of every extractor layer between the Gram matrix of the
    stylized activations and the style Gram cut to [n_batch] rows. *)
Definition layer_mses (n_batch : nat) (gram_style : list (Var (list GramM)))
  (features_y : list (Var (list Feat))) : list Loss :=
  map (fun fg => mse_gram (gram_matrix (data (fst fg)))
                   (firstn n_batch (data (snd fg))))
    (combine features_y gram_style).

(** Sizes the collaborators keep: the extractor has [layers] outputs,
    at least two, each with as many rows as its input; the other
    operations keep the number of rows; [repeat] makes [n] copies. *)
Record Shapes (layers : nat) : Prop := {
  two_layers : (2 <= layers)%nat;
  vgg_layers : forall s x, List.length (vgg_forward s x) = layers;
  vgg_rows : forall s x f,
    In f (vgg_forward s x) -> List.length f = List.length x;
  gram_rows : forall f, List.length (gram_matrix f) = List.length f;
  forward_rows : forall p b x,
    List.length (transformer_forward p b x) = List.length x;
  subtract_rows : forall x,
    List.length (subtract_imagenet_mean_batch x) = List.length x;
  preprocess_rows : forall x,
    List.length (preprocess_batch x) = List.length x;
  repeat_rows : forall i n,
    0 < n -> tensor_repeat i n = inr (repeat i (Z.to_nat n))
}.

(** The extractor's outputs for the stylized batch, under the weights
    [p] in mode [mode], and for the content batch. *)
Definition stylized_activations (vgg : Vgg16) (p : Params) (mode : bool)
  (x : list Image) : list (list Feat) :=
  vgg_forward (vgg_state vgg)
    (subtract_imagenet_mean_batch (transformer_forward p mode x)).

Definition content_activations (vgg : Vgg16) (x : list Image)
  : list (list Feat) :=
  vgg_forward (vgg_state vgg) (subtract_imagenet_mean_batch x).

(** For every layer, the MSE between the Gram matrix of the layer's
    activations and the style Gram cut to [n_batch] rows. *)
Definition gram_mses (n_batch : nat) (gram_style : list (Var (list GramM)))
  (acts : list (list Feat)) : list Loss :=
  map (fun ag => mse_gram (gram_matrix (fst ag))
                   (firstn n_batch (data (snd ag))))
    (combine acts gram_style).



(** The style loss of a step: the weighted Gram MSEs of the layers,
    added up from the float [0.]. *)
Definition style_sum (args : Args) (mses : list Loss) : float + Loss :=
  fold_left (fun s l => iadd s (smul (style_weight args) l)) mses
    (inl fzero).

(** The seed is one [np.random.seed] takes. *)
Definition seed_accepted (args : Args) : Prop := 0 <= seed args < 2 ^ 32.

(** The file system [utils.init_vgg16] leaves when it finds [f]. *)
Definition fetched (args : Args) (f : FileSystem file) : FileSystem file :=
  snd (init_vgg16 Weights (vgg_model_dir args) f).

(** The locals after lines 85-117 of one batch, or what was raised:
    [train_batch] without its log line. *)
Definition step_state (args : Args) (vgg : Vgg16) (xs : list (Image * Z))
  (r : Running) : exn + Running :=
  let (n_batch, x) := batch_input args xs in
  let tr := transformer (trainer r) in
  let gs := gram_style (trainer r) in
  ls <~ losses args vgg gs n_batch x tr ;;
  let (content_loss, style_loss) := ls in
  let grad := backward (objective args vgg gs n_batch x tr) (params tr) in
  let (opt', p') := Adam_step (optimizer (trainer r)) (params tr) grad in
  s <~ loss_item style_loss ;;
  inr (mkRunning
         (mkTrainer (mkTransformer p' (training tr) (device tr)) opt' gs)
         (fadd (agg_content_loss r) (item content_loss))
         (fadd (agg_style_loss r) s)
         (count r + Z.of_nat n_batch)).

(** The line lines 120-125 build for batch [batch_id] at tick [k]. *)
Definition mesg (total e batch_id : Z) (r : Running) (k : nat) : log_line :=
  mkLog (time_ctime k) (e + 1) (count r) total
    (fdiv (agg_content_loss r) (float_of_int (batch_id + 1)))
    (fdiv (agg_style_loss r) (float_of_int (batch_id + 1)))
    (fdiv (fadd (agg_content_loss r) (agg_style_loss r))
       (float_of_int (batch_id + 1))).

(** [f] with the directory [p] made if nothing is at [p]. *)
Definition ensure_dir (p : string) (f : FileSystem file) : FileSystem file :=
  if fs_exists f p then f else mkFS (p :: dirs f) (files f).

(** A computation that writes no file and does not leave the process. *)
Definition keeps_files {A} (c : Py A) : Prop :=
  forall w, fs (snd (c w)) = fs w /\ forall n, fst (c w) <> Exit n.

(** The log lines among what was printed. *)
Definition is_mesg (l : line) : bool :=
  match l with
  | Mesg _ => true
  | Print _ => false
  end.

Definition mesgs (out : list line) : list line := filter is_mesg out.

End Observed.

(** ** A small machine to run the driver on

    Images, features and Gram rows are integers, scalar losses are exact
    integers, the extractor has two layers, CUDA is absent and the
    directory [/ro] cannot be written. *)

Module Mock.

(** The integer a float stands for, among 0..8. *)
Definition small_int (f : float) : option Z :=
  find (fun k => PrimFloat.eqb f (float_of_int k)) (range 9).

Definition int_of (f : float) : Z :=
  match small_int f with
  | Some k => k
  | None => 0
  end.

Definition show_float (f : float) : string :=
  match small_int f with
  | Some k => (str_int k ++ ".0")%string
  | None => "nan"
  end.

Definition sq_err (a b : list Z) : Z :=
  fold_left Z.add (map (fun p => (fst p - snd p) * (fst p - snd p))
                     (combine a b)) 0.

Definition starts_with_ro (p : string) : bool := String.prefix "/ro" p.

#[export] Instance torch : Torch := {|
  Image := Z;
  Feat := Z;
  GramM := Z;
  Loss := Z;
  Params := Z;
  Grad := Z;
  OptState := Z;
  StateDict := Z;
  cuda_is_available := false;
  time_ctime := fun _ => "Wed Nov  4 01:50:00 2026";
  sys_version := "3.6";
  torch_version := "0.1.12";
  str_float := show_float;
  makedirs_error :=
    fun p => if starts_with_ro p then Some "Read-only file system" else None;
  save_error :=
    fun p => if starts_with_ro p then Some "Read-only file system" else None;
  randperm := fun _ _ n => rev (seq 0 n);
  ImageFolder :=
    fun p _ => if (p =? "coco")%string then inr [(1, 0); (2, 0); (3, 1)]
               else inl (RuntimeError "Found 0 images");
  tensor_load_rgbimage := fun _ _ _ => inr 7;
  init_vgg16 :=
    fun Obj weights model_folder f =>
      let p := path_join model_folder "vgg16.weight" in
      if existsb (fun x => String.eqb p (fst x)) (files f) then (None, f)
      else (None, mkFS (dirs f) ((p, weights 3) :: files f));
  tensor_repeat :=
    fun i n => if 0 <? n then inr (repeat i (Z.to_nat n))
               else inl (RuntimeError "invalid size");
  preprocess_batch := fun x => x;
  subtract_imagenet_mean_batch := map (fun v => v - 1);
  gram_matrix := map (fun v => v * v);
  TransformerNet := fun seed => seed;
  transformer_forward := fun p _ x => map (Z.add p) x;
  vgg_forward := fun w x => [map (Z.mul w) x; map (Z.add w) x];
  mse_feat := sq_err;
  mse_gram := sq_err;
  smul := fun c l => int_of c * l;
  ladd_const := fun l c => l + int_of c;
  ladd := Z.add;
  item := float_of_int;
  Adam := fun _ _ => 0;
  backward := fun f p => match f p with Some l => l | None => 0 end;
  Adam_step := fun o p g => (o + 1, p - 1)
|}.

Definition args : Args :=
  mkArgs 2 1 "vgg" 42 0 "coco" 256 None 1%float "mosaic.jpg" 2%float 5%float
    1 "out".

(** The same run with CUDA asked for, with no epoch, and with a save
    directory that cannot be made. *)
Definition args_cuda : Args := set_cuda args 1.

Definition args_idle : Args :=
  mkArgs 2 0 "vgg" 42 0 "coco" 256 None 1%float "mosaic.jpg" 2%float 5%float
    1 "out".

Definition args_ro : Args :=
  mkArgs 2 1 "vgg" 42 0 "coco" 256 None 1%float "mosaic.jpg" 2%float 5%float
    1 "/ro/out".

Definition world : World file := mkWorld [] (mkFS [] []) 0.

(** What [initialize args] returns. *)
Definition setup : Setup :=
  mkSetup
    (Loader.mkDataLoader [(1, 0); (2, 0); (3, 1)] 2 false 0 false)
    (mkVgg16 3 CPU)
    (mkTrainer (mkTransformer 42 true CPU) 0
       [mkVariable [324; 324] false true; mkVariable [81; 81] false true]).

(** The batches of one pass over the three images. *)
Definition images : list (Z * Z) := [(1, 0); (2, 0); (3, 1)].
Definition first_batch : list (Z * Z) := [(1, 0); (2, 0)].
Definition last_batch : list (Z * Z) := [(3, 1)].

Definition batches : list (Z * list (Z * Z)) :=
  [(0, first_batch); (1, last_batch)].

(** The run of [args] with a log interval of 0. *)
Definition args_nolog : Args :=
  mkArgs 2 1 "vgg" 42 0 "coco" 256 None 1%float "mosaic.jpg" 2%float 5%float
    0 "out".

(** The run of [args] with a seed numpy does not take. *)
Definition args_bad_seed : Args :=
  mkArgs 2 1 "vgg" (-1) 1 "coco" 256 None 1%float "mosaic.jpg" 2%float
    5%float 1 "out".


End Mock.

(** ** The small machine with rounding losses

    As [Mock], but the scalar losses are floats: the MSE is the mean of
    the squared errors and the losses are multiplied and added as
    floats are. *)

Module Rounded.

Definition mse (a b : list Z) : float :=
  fdiv (float_of_int (Mock.sq_err a b))
    (float_of_int (Z.of_nat (List.length a))).

Definition torch : Torch := {|
  Image := Z;
  Feat := Z;
  GramM := Z;
  Loss := float;
  Params := Z;
  Grad := float;
  OptState := Z;
  StateDict := Z;
  cuda_is_available := false;
  time_ctime := fun _ => "Wed Nov  4 01:50:00 2026";
  sys_version := "3.6";
  torch_version := "0.1.12";
  str_float := Mock.show_float;
  makedirs_error := fun _ => None;
  save_error := fun _ => None;
  randperm := fun _ _ n => rev (seq 0 n);
  init_vgg16 :=
    fun Obj weights model_folder f =>
      let p := path_join model_folder "vgg16.weight" in
      if existsb (fun x => String.eqb p (fst x)) (files f) then (None, f)
      else (None, mkFS (dirs f) ((p, weights 3) :: files f));
  ImageFolder := fun _ _ => inr [(1, 0); (2, 0); (3, 1)];
  tensor_load_rgbimage := fun _ _ _ => inr 7;
  tensor_repeat :=
    fun i n => if 0 <? n then inr (repeat i (Z.to_nat n))
               else inl (RuntimeError "invalid size");
  preprocess_batch := fun x => x;
  subtract_imagenet_mean_batch := map (fun v => v - 1);
  gram_matrix := map (fun v => v * v);
  TransformerNet := fun seed => seed;
  transformer_forward := fun p _ x => map (Z.add p) x;
  vgg_forward := fun w x => [map (Z.mul w) x; map (Z.add w) x];
  mse_feat := mse;
  mse_gram := mse;
  smul := PrimFloat.mul;
  ladd_const := PrimFloat.add;
  ladd := PrimFloat.add;
  item := fun l => l;
  Adam := fun _ _ => 0;
  backward := fun f p => match f p with Some l => l | None => fzero end;
  Adam_step := fun o p g => (o + 1, p - 1)
|}.

(** One batch holds the three images. *)
Definition args : Args :=
  mkArgs 3 1 "vgg" 42 0 "coco" 256 None 1%float "mosaic.jpg" 2%float 5%float
    1 "out".

End Rounded.

(** * Properties *)

(** ** Reasoning about runs *)

Section Runs.

Variable Obj : Type.

Lemma bind_returns A B (c : M Obj A) (k : A -> M Obj B) w b w' :
  bind c k w = (Return b, w') ->
  exists a w1, c w = (Return a, w1) /\ k a w1 = (Return b, w').
Proof.
  unfold bind. destruct (c w) as [[a | e | n] w1]; intro H; try discriminate.
  exists a, w1. split; [reflexivity | exact H].
Qed.

Lemma bind_step A B (c : M Obj A) (k : A -> M Obj B) w a w1 :
  c w = (Return a, w1) -> bind c k w = k a w1.
Proof. unfold bind. intros ->. reflexivity. Qed.

Lemma bind_bind A B C (c : M Obj A) (k1 : A -> M Obj B)
  (k2 : B -> M Obj C) w :
  bind (bind c k1) k2 w = bind c (fun a => bind (k1 a) k2) w.
Proof.
  unfold bind. destruct (c w) as [[a | e | n] w1]; reflexivity.
Qed.

Lemma bind_raises A B (c : M Obj A) (k : A -> M Obj B) w e w1 :
  c w = (Raise e, w1) -> bind c k w = (Raise e, w1).
Proof. unfold bind. intros ->. reflexivity. Qed.

Lemma lift_returns A (r : exn + A) (w : World Obj) a w' :
  lift r w = (Return a, w') -> r = inr a /\ w' = w.
Proof.
  destruct r as [e | a0]; simpl; unfold raise, ret; intro H; inversion H.
  split; reflexivity.
Qed.

Lemma for_each_app A S (body : A -> S -> M Obj S) l1 l2 s w :
  for_each (l1 ++ l2) body s w =
  bind (for_each l1 body s) (for_each l2 body) w.
Proof.
  revert s w. induction l1 as [| a l1 IH]; intros s w; simpl.
  - reflexivity.
  - unfold bind.
    destruct (body a s w) as [[s1 | e | n] w1]; try reflexivity.
    rewrite IH. reflexivity.
Qed.

(** A property every iteration keeps holds when the loop returns. *)
Lemma for_each_keeps A S (body : A -> S -> M Obj S) (P : S -> Prop) :
  (forall a s w s' w', P s -> body a s w = (Return s', w') -> P s') ->
  forall l s w s' w',
    P s -> for_each l body s w = (Return s', w') -> P s'.
Proof.
  intros Hbody l. induction l as [| a l IH]; intros s w s' w' Hs Hrun.
  - simpl in Hrun. unfold ret in Hrun. inversion Hrun. subst. exact Hs.
  - simpl in Hrun. apply bind_returns in Hrun.
    destruct Hrun as (s1 & w1 & Hstep & Hrest).
    eapply IH; [| exact Hrest]. eapply Hbody; eassumption.
Qed.

End Runs.

(** ** Batches of a loader *)

Section LoaderFacts.

Variable A : Type.

Lemma batch_sampler_concat bs l : forall batch,
  List.concat (Loader.batch_sampler bs batch l) = batch ++ l.
Proof.
  induction l as [| idx rest IH]; intro batch; simpl.
  - destruct batch; simpl; rewrite ?app_nil_r; reflexivity.
  - destruct (Z.of_nat (List.length (batch ++ [idx])) =? bs); simpl.
    + rewrite IH. simpl. rewrite <- app_assoc. reflexivity.
    + rewrite IH. rewrite <- app_assoc. reflexivity.
Qed.

Lemma batch_sampler_sizes bs l : 0 < bs -> forall batch,
  Z.of_nat (List.length batch) < bs ->
  Forall (fun b => 0 < Z.of_nat (List.length b) <= bs)
    (Loader.batch_sampler bs batch l).
Proof.
  intro Hbs. induction l as [| idx rest IH]; intros batch Hb; simpl.
  - destruct batch as [| x batch]; constructor; [| constructor].
    simpl List.length in *. lia.
  - assert (Hlen : Z.of_nat (List.length (batch ++ [idx]))
                   = Z.of_nat (List.length batch) + 1).
    { rewrite length_app. simpl. lia. }
    destruct (Z.of_nat (List.length (batch ++ [idx])) =? bs) eqn:E.
    + apply Z.eqb_eq in E. constructor; [lia |]. apply IH. simpl. lia.
    + apply Z.eqb_neq in E. apply IH. lia.
Qed.

Lemma batch_sampler_full bs l : 0 < bs -> forall batch,
  Z.of_nat (List.length batch) < bs ->
  Forall (fun b => Z.of_nat (List.length b) = bs)
    (removelast (Loader.batch_sampler bs batch l)).
Proof.
  intro Hbs. induction l as [| idx rest IH]; intros batch Hb.
  - simpl. destruct batch; constructor.
  - assert (Hlen : Z.of_nat (List.length (batch ++ [idx]))
                   = Z.of_nat (List.length batch) + 1).
    { rewrite length_app. simpl. lia. }
    simpl Loader.batch_sampler.
    destruct (Z.of_nat (List.length (batch ++ [idx])) =? bs) eqn:E.
    + apply Z.eqb_eq in E.
      destruct (Loader.batch_sampler bs [] rest) as [| b bs'] eqn:Er.
      * simpl. constructor.
      * change (removelast ((batch ++ [idx]) :: b :: bs'))
          with ((batch ++ [idx]) :: removelast (b :: bs')).
        constructor; [exact E |]. rewrite <- Er. apply IH. simpl. lia.
    + apply Z.eqb_neq in E. apply IH. lia.
Qed.

Lemma fetch_concat (ds : list A) ll :
  List.concat (map (Loader.fetch ds) ll) = Loader.fetch ds (List.concat ll).
Proof.
  unfold Loader.fetch. induction ll as [| l ll IH]; simpl.
  - reflexivity.
  - rewrite IH, flat_map_app. reflexivity.
Qed.

Lemma fetch_seq (pre ds : list A) :
  Loader.fetch (pre ++ ds) (seq (List.length pre) (List.length ds)) = ds.
Proof.
  unfold Loader.fetch. revert pre. induction ds as [| a ds IH]; intro pre.
  - reflexivity.
  - simpl. rewrite nth_error_app2, Nat.sub_diag by lia. simpl. f_equal.
    specialize (IH (pre ++ [a])). rewrite <- app_assoc in IH. simpl in IH.
    rewrite length_app in IH. simpl in IH.
    rewrite Nat.add_1_r in IH. exact IH.
Qed.

Lemma fetch_length (ds : list A) idxs :
  Forall (fun i => (i < List.length ds)%nat) idxs ->
  List.length (Loader.fetch ds idxs) = List.length idxs.
Proof.
  unfold Loader.fetch. induction 1 as [| i idxs Hi _ IH]; simpl.
  - reflexivity.
  - destruct (nth_error ds i) eqn:E.
    + simpl. rewrite IH. reflexivity.
    + apply nth_error_None in E. lia.
Qed.

End LoaderFacts.

Section Properties.

Context {torch : Torch}.

(** Runs a straight-line block on a world; projections of the worlds
    built on the way are reduced, so the term stays small. *)
Ltac run :=
  lazy beta iota zeta delta
    [bind print print_mesg ctime ret raise sys_exit lift stdout fs ticks].

Ltac bind_inv H :=
  let a := fresh "a" in
  let w := fresh "w" in
  let Ha := fresh "Hstep" in
  apply bind_returns in H; destruct H as (a & w & Ha & H).

(** ** One optimisation step *)

(** What a batch that is processed to the end leaves behind. *)
Lemma train_batch_returns args vgg total e batch_id xs r w r' w' :
  train_batch args vgg total e (batch_id, xs) r w = (Return r', w') ->
  exists content_loss style_loss opt' p',
    losses args vgg (gram_style (trainer r)) (fst (batch_input args xs))
      (snd (batch_input args xs)) (transformer (trainer r))
    = inr (content_loss, inr style_loss)
    /\ Adam_step (optimizer (trainer r)) (params (transformer (trainer r)))
         (backward
            (objective args vgg (gram_style (trainer r))
               (fst (batch_input args xs)) (snd (batch_input args xs))
               (transformer (trainer r)))
            (params (transformer (trainer r))))
       = (opt', p')
    /\ r' = mkRunning
              (mkTrainer
                 (mkTransformer p' (training (transformer (trainer r)))
                    (device (transformer (trainer r))))
                 opt' (gram_style (trainer r)))
              (fadd (agg_content_loss r) (item content_loss))
              (fadd (agg_style_loss r) (item style_loss))
              (count r + Z.of_nat (fst (batch_input args xs))).
Proof.
  unfold train_batch. destruct (batch_input args xs) as [n_batch x]. simpl.
  intro H. bind_inv H. apply lift_returns in Hstep. destruct Hstep as [Hl ->].
  destruct a as [content_loss style_loss].
  destruct (Adam_step _ _ _) as [opt' p'] eqn:Hopt.
  bind_inv H. apply lift_returns in Hstep. destruct Hstep as [Hs ->].
  destruct style_loss as [z | s]; simpl in Hs; [discriminate |].
  inversion Hs; subst a. bind_inv H. unfold ret in H. inversion H; subst.
  exists content_loss, s, opt', p'. repeat split; assumption.
Qed.

Lemma train_batch_keeps_gram_style args vgg total e b r w r' w' :
  train_batch args vgg total e b r w = (Return r', w') ->
  gram_style (trainer r') = gram_style (trainer r).
Proof.
  destruct b as [batch_id xs]. intro H.
  apply train_batch_returns in H.
  destruct H as (c & s & o & p & _ & _ & ->). reflexivity.
Qed.

Lemma run_batches_keeps_gram_style args vgg total e batches r w r' w' :
  run_batches args vgg total e batches r w = (Return r', w') ->
  gram_style (trainer r') = gram_style (trainer r).
Proof.
  unfold run_batches. intro H.
  apply (for_each_keeps (train_batch args vgg total e)
           (fun s => gram_style (trainer s) = gram_style (trainer r)))
    with (l := batches) (s := r) (w := w) (w' := w'); auto.
  intros a s w0 s' w0' Hs Hb.
  rewrite (train_batch_keeps_gram_style _ _ _ _ _ _ _ Hb). exact Hs.
Qed.

Lemma train_epoch_keeps_gram_style args vgg loader e t w t' w' :
  train_epoch args vgg loader e t w = (Return t', w') ->
  gram_style t' = gram_style t.
Proof.
  unfold train_epoch. intro H. bind_inv H. unfold ret in H.
  inversion H; subst. apply run_batches_keeps_gram_style in Hstep.
  exact Hstep.
Qed.

Lemma epochs_keep_gram_style args vgg loader es t w t' w' :
  for_each es (train_epoch args vgg loader) t w = (Return t', w') ->
  gram_style t' = gram_style t.
Proof.
  intro H.
  apply (for_each_keeps (train_epoch args vgg loader)
           (fun s => gram_style s = gram_style t))
    with (l := es) (s := t) (w := w) (w' := w'); auto.
  intros a s w0 s' w0' Hs Hb.
  rewrite (train_epoch_keeps_gram_style _ _ _ _ _ _ Hb). exact Hs.
Qed.

(** ** The set-up *)

Lemma utils_init_vgg16_outcome model_folder w :
  snd (utils_init_vgg16 model_folder w)
  = mkWorld (stdout w) (snd (init_vgg16 Weights model_folder (fs w)))
      (ticks w)
  /\ forall n, fst (utils_init_vgg16 model_folder w) <> Exit n.
Proof.
  unfold utils_init_vgg16.
  destruct (init_vgg16 Weights model_folder (fs w)) as [[e |] f];
    split; try reflexivity; discriminate.
Qed.

Lemma load_state_dict_outcome p w :
  snd (load_state_dict p w) = w /\ forall n, fst (load_state_dict p w) <> Exit n.
Proof.
  unfold load_state_dict.
  destruct (find _ _) as [[q [t | i | s]] |];
    split; try reflexivity; discriminate.
Qed.

(** What a set-up that succeeds has built, and the world it leaves:
    the one [utils.init_vgg16] left. *)
Lemma initialize_inv args w s w' :
  initialize args w = (Return s, w') ->
  w' = mkWorld (stdout w) (fetched args (fs w)) (ticks w)
  /\ (exists ds,
        ImageFolder (dataset args) (image_size args) = inr ds
        /\ train_loader s = make_train_loader args ds)
  /\ style_target args (vgg s) = inr (gram_style (start s))
  /\ params (transformer (start s)) = TransformerNet (seed args)
  /\ training (transformer (start s)) = true
  /\ optimizer (start s) = Adam (TransformerNet (seed args)) (lr args)
  /\ (truthy (cuda args) = false ->
      device (transformer (start s)) = CPU /\ vgg_device (vgg s) = CPU).
Proof.
  unfold initialize. intro H.
  bind_inv H. apply lift_returns in Hstep. destruct Hstep as [Hd ->].
  bind_inv H.
  pose proof (utils_init_vgg16_outcome (vgg_model_dir args) w) as [Hw _].
  rewrite Hstep in Hw. simpl in Hw. subst w0. clear Hstep.
  bind_inv H.
  pose proof (load_state_dict_outcome
                (path_join (vgg_model_dir args) "vgg16.weight")
                (mkWorld (stdout w)
                   (snd (init_vgg16 Weights (vgg_model_dir args) (fs w)))
                   (ticks w))) as [Hw _].
  rewrite Hstep in Hw. simpl in Hw. subst w0. clear Hstep.
  bind_inv H. apply lift_returns in Hstep. destruct Hstep as [Hg ->].
  unfold ret in H. inversion H; subst. simpl.
  split; [reflexivity |]. split; [exists a; split; [exact Hd | reflexivity] |].
  split; [exact Hg |].
  destruct (truthy (cuda args)); repeat split; discriminate.
Qed.

(** ** The style target *)

(** C6.  The Gram matrices of the style image are computed by the
    set-up, before the first epoch, and never again: whatever number of
    epochs has run, and whatever number of batches of the epoch that
    follows, the trainer still holds the value [style_target] returned
    to [initialize]. *)
Theorem gram_style_held_constant args w0 s w1 es w t w' :
  initialize args w0 = (Return s, w1) ->
  for_each es (train_epoch args (vgg s) (train_loader s)) (start s) w
  = (Return t, w') ->
  style_target args (vgg s) = inr (gram_style t)
  /\ forall total e batches w2 r w3,
       run_batches args (vgg s) total e batches (start_epoch t) w2
       = (Return r, w3) ->
       style_target args (vgg s) = inr (gram_style (trainer r)).
Proof.
  intros Hinit Hrun.
  assert (Hs : style_target args (vgg s) = inr (gram_style (start s))).
  { apply initialize_inv in Hinit. apply Hinit. }
  apply epochs_keep_gram_style in Hrun.
  split.
  - rewrite Hrun. exact Hs.
  - intros total e batches w2 r w3 Hb.
    apply run_batches_keeps_gram_style in Hb. simpl in Hb.
    rewrite Hb, Hrun. exact Hs.
Qed.

(** ** Running sums *)

Lemma losses_content args vgg gs n x tr c s :
  losses args vgg gs n x tr = inr (c, s) ->
  exists l,
    content_mse (fst (extract vgg x tr)) (snd (extract vgg x tr)) = inr l
    /\ c = smul (content_weight args) l.
Proof.
  unfold losses. destruct (extract vgg x tr) as [fy fxc]. simpl.
  destruct (content_mse fy fxc) as [e | l]; simpl; [discriminate |].
  destruct (for_sum _ _ _) as [e | sl]; simpl; [discriminate |].
  intro H. inversion H. exists l. split; reflexivity.
Qed.

Lemma epoch_steps_sums args vgg total e batches :
  forall r w r' w',
    run_batches args vgg total e batches r w = (Return r', w') ->
    let steps := epoch_steps args vgg total e batches r w in
    List.length steps = List.length batches
    /\ agg_content_loss r'
       = fold_left fadd (map (fun s => item (step_content s)) steps)
           (agg_content_loss r)
    /\ agg_style_loss r'
       = fold_left fadd (map (fun s => item (step_style s)) steps)
           (agg_style_loss r)
    /\ Forall (fun s => step_content s
                        = smul (content_weight args) (step_mse s)) steps.
Proof.
  induction batches as [| b bs IH]; intros r w r' w' Hrun; simpl.
  - unfold run_batches in Hrun. simpl in Hrun. unfold ret in Hrun.
    inversion Hrun; subst. repeat split. constructor.
  - unfold run_batches in Hrun. simpl in Hrun. bind_inv Hrun.
    rewrite Hstep. destruct b as [batch_id xs].
    pose proof (train_batch_returns _ _ _ _ _ _ _ _ Hstep) as Hb.
    destruct Hb as (c & s & o & p & Hl & _ & Ha).
    pose proof (losses_content _ _ _ _ _ _ Hl) as (l & Hc & Hw).
    unfold batch_step. simpl snd.
    destruct (batch_input args xs) as [n x]. cbn [fst snd] in Hl, Hc.
    destruct (extract vgg x (transformer (trainer r))) as [fy fxc].
    cbn [fst snd] in Hc. rewrite Hc, Hl.
    specialize (IH a w0 r' w' Hrun). simpl in IH.
    destruct IH as (Hlen & Hcs & Hss & Hall). simpl.
    rewrite Hlen, Hcs, Hss. subst a. simpl.
    repeat split. constructor; [exact Hw | exact Hall].
Qed.

(** C1, amended.  After any number of batches of an epoch the running
    accumulators hold the left-to-right float sums of the values
    [content_loss.data[0]] and [style_loss.data[0]] of the batches
    processed, and [content_loss] is the content weight times the MSE:
    the sums are of weighted losses.  Divided by the number of batches,
    the content sum is the mean of those weighted content losses. *)
Theorem running_sums_of_weighted_losses args vgg total e batches t w r w' :
  run_batches args vgg total e batches (start_epoch t) w = (Return r, w') ->
  let steps := epoch_steps args vgg total e batches (start_epoch t) w in
  List.length steps = List.length batches
  /\ Forall (fun s => step_content s
                      = smul (content_weight args) (step_mse s)) steps
  /\ agg_content_loss r = fsum (map (fun s => item (step_content s)) steps)
  /\ agg_style_loss r = fsum (map (fun s => item (step_style s)) steps)
  /\ fdiv (agg_content_loss r)
       (float_of_int (Z.of_nat (List.length batches)))
     = mean (map (fun s => item (step_content s)) steps).
Proof.
  intros Hrun steps.
  pose proof (epoch_steps_sums _ _ _ _ _ _ _ Hrun) as H.
  cbv zeta in H. fold steps in H. simpl in H.
  destruct H as (Hlen & Hc & Hs & Hall).
  repeat split; try assumption.
  unfold mean, fsum. rewrite length_map, Hlen, Hc. reflexivity.
Qed.

(** ** The configuration and the backend *)

Lemma print_returns (vs : list value) (w : World file) :
  print vs w = (Return tt, mkWorld (stdout w ++ [Print vs]) (fs w) (ticks w)).
Proof. reflexivity. Qed.

Lemma select_backend_returns args w :
  exists w1, select_backend args w = (Return (effective args), w1).
Proof.
  unfold select_backend, effective.
  destruct (truthy (cuda args) && negb cuda_is_available); run;
    eexists; reflexivity.
Qed.

Lemma banner_returns args w : exists w1, banner args w = (Return tt, w1).
Proof. unfold banner. run. eexists. reflexivity. Qed.

Lemma preamble_returns args w :
  exists w1, preamble args w = (Return (effective args), w1).
Proof.
  unfold preamble.
  destruct (select_backend_returns args w) as [w0 H0].
  destruct (banner_returns (effective args) w0) as [w1 H1].
  exists w1. rewrite (bind_step _ _ _ H0), (bind_step _ _ _ H1). reflexivity.
Qed.

Lemma seed_accepted_test args :
  seed_accepted args <-> (0 <=? seed args) && (seed args <? 2 ^ 32) = true.
Proof.
  unfold seed_accepted. rewrite andb_true_iff, Z.leb_le, Z.ltb_lt.
  reflexivity.
Qed.

(** Past lines 20-21 when the seed is accepted. *)
Lemma train_seeded args w :
  seed_accepted args ->
  train args w
  = bind (preamble args)
      (fun a => bind (initialize a)
         (fun s => bind (run_epochs a s)
            (fun t => bind (finalize a t) (fun _ => ret a)))) w.
Proof.
  intro H. apply seed_accepted_test in H.
  unfold train, np_random_seed, torch_manual_seed. rewrite H.
  rewrite (@bind_step _ _ _ (ret tt) _ w tt w eq_refl).
  rewrite (@bind_step _ _ _ (ret tt) _ w tt w eq_refl).
  reflexivity.
Qed.

(** Stopped at line 20 when it is not. *)
Lemma train_bad_seed args w :
  ~ seed_accepted args ->
  train args w
  = (Raise (ValueError "Seed must be between 0 and 2**32 - 1"), w).
Proof.
  intro H. rewrite seed_accepted_test in H. apply not_true_is_false in H.
  unfold train, np_random_seed. rewrite H. reflexivity.
Qed.

Lemma seed_accepted_dec args : seed_accepted args \/ ~ seed_accepted args.
Proof. unfold seed_accepted. lia. Qed.

Lemma train_phases args w :
  seed_accepted args ->
  exists w1,
    preamble args w = (Return (effective args), w1)
    /\ train args w
       = bind (initialize (effective args))
           (fun s => bind (run_epochs (effective args) s)
                       (fun t => bind (finalize (effective args) t)
                                   (fun _ => ret (effective args)))) w1.
Proof.
  intro Hseed. destruct (preamble_returns args w) as [w1 H1]. exists w1.
  split; [exact H1 |]. rewrite (@train_seeded args w Hseed).
  rewrite (bind_step _ _ _ H1). reflexivity.
Qed.

Lemma train_returns_seed args w a w' :
  train args w = (Return a, w') -> seed_accepted args.
Proof.
  intro H. destruct (seed_accepted_dec args) as [Hs | Hs]; [exact Hs |].
  rewrite (@train_bad_seed args w Hs) in H. discriminate.
Qed.

Lemma train_returns args w a w' :
  train args w = (Return a, w') ->
  a = effective args
  /\ exists w1 s w2 t w3,
       preamble args w = (Return a, w1)
       /\ initialize a w1 = (Return s, w2)
       /\ run_epochs a s w2 = (Return t, w3)
       /\ finalize a t w3 = (Return tt, w').
Proof.
  intro H. pose proof (@train_returns_seed _ _ _ _ H) as Hseed.
  destruct (@train_phases args w Hseed) as (w1 & Hp & Ht).
  rewrite Ht in H. bind_inv H. rename a0 into s, w0 into w2.
  bind_inv H. rename a0 into t, w0 into w3.
  bind_inv H. unfold ret in H. inversion H; subst. destruct a0.
  split; [reflexivity |]. exists w1, s, w2, t, w3. repeat split; assumption.
Qed.

(** C5, amended.  [train] assigns one field of the configuration,
    [cuda], and only when CUDA is asked for and absent (it becomes 0);
    every other field, and [cuda] in every other case, is at the end of
    the run what it was at the start. *)
Theorem train_assigns_only_cuda args w a w' :
  train args w = (Return a, w') ->
  a = set_cuda args
        (if truthy (cuda args) && negb cuda_is_available then 0
         else cuda args).
Proof.
  intro H. apply train_returns in H. destruct H as [-> _].
  unfold effective.
  destruct (truthy (cuda args) && negb cuda_is_available);
    [reflexivity | destruct args; reflexivity].
Qed.

(** C7.  When CUDA is asked for and absent, a run whose seed lines
    20-21 accept prints the warning and then does what a run configured
    for the CPU does, both networks on the CPU.  No other failure is
    handled: one raised by the set-up, by an epoch or by the saving of
    the checkpoint is raised by [train]. *)
Theorem cuda_fallback args w :
  truthy (cuda args) = true ->
  cuda_is_available = false ->
  seed_accepted args ->
  let w1 := mkWorld (stdout w ++ [warning]) (fs w) (ticks w) in
  train args w = train (set_cuda args 0) w1
  /\ select_backend (set_cuda args 0) w1 = (Return (set_cuda args 0), w1)
  /\ (forall s w2 w3,
         initialize (set_cuda args 0) w2 = (Return s, w3) ->
         device (transformer (start s)) = CPU /\ vgg_device (vgg s) = CPU)
  /\ (forall a w2 e w3,
         preamble args w = (Return a, w2) ->
         initialize a w2 = (Raise e, w3) -> train args w = (Raise e, w3))
  /\ (forall a w2 s w3 e w4,
         preamble args w = (Return a, w2) ->
         initialize a w2 = (Return s, w3) ->
         run_epochs a s w3 = (Raise e, w4) -> train args w = (Raise e, w4))
  /\ (forall a w2 s w3 t w4 e w5,
         preamble args w = (Return a, w2) ->
         initialize a w2 = (Return s, w3) ->
         run_epochs a s w3 = (Return t, w4) ->
         finalize a t w4 = (Raise e, w5) -> train args w = (Raise e, w5)).
Proof.
  intros Hc Ha Hseed w1.
  assert (Hseed0 : seed_accepted (set_cuda args 0)) by exact Hseed.
  repeat split.
  - assert (H1 : select_backend args w = (Return (set_cuda args 0), w1)).
    { unfold select_backend. rewrite Hc, Ha. reflexivity. }
    assert (H2 : select_backend (set_cuda args 0) w1
                 = (Return (set_cuda args 0), w1)) by reflexivity.
    rewrite (@train_seeded args w Hseed), (@train_seeded (set_cuda args 0) w1 Hseed0).
    unfold preamble. rewrite !bind_bind.
    rewrite (bind_step _ _ _ H1), (bind_step _ _ _ H2). reflexivity.
  - apply initialize_inv in H. apply H. reflexivity.
  - apply initialize_inv in H. apply H. reflexivity.
  - intros a w2 e w3 Hp Hi. rewrite (@train_seeded args w Hseed).
    rewrite (bind_step _ _ _ Hp). apply bind_raises. exact Hi.
  - intros a w2 s w3 e w4 Hp Hi Hr. rewrite (@train_seeded args w Hseed).
    rewrite (bind_step _ _ _ Hp), (bind_step _ _ _ Hi). apply bind_raises.
    exact Hr.
  - intros a w2 s w3 t w4 e w5 Hp Hi Hr Hf. rewrite (@train_seeded args w Hseed).
    rewrite (bind_step _ _ _ Hp), (bind_step _ _ _ Hi), (bind_step _ _ _ Hr).
    apply bind_raises. exact Hf.
Qed.

(** ** The checkpoint *)

Lemma append_assoc (a b c : string) :
  ((a ++ b) ++ c)%string = (a ++ b ++ c)%string.
Proof. induction a as [| x a IH]; simpl; [reflexivity | rewrite IH; reflexivity]. Qed.

Lemma contains_prefix (t post : string) : contains (t ++ post) t.
Proof. exists "", post. reflexivity. Qed.

Lemma contains_after (pre s t : string) :
  contains s t -> contains (pre ++ s) t.
Proof.
  intros (a & b & ->). exists (pre ++ a)%string, b.
  rewrite append_assoc. reflexivity.
Qed.

Lemma effective_fields args :
  epochs (effective args) = epochs args
  /\ content_weight (effective args) = content_weight args
  /\ style_weight (effective args) = style_weight args
  /\ save_model_dir (effective args) = save_model_dir args
  /\ seed (effective args) = seed args.
Proof.
  unfold effective.
  destruct (truthy (cuda args) && negb cuda_is_available);
    repeat split; reflexivity.
Qed.

Lemma save_model_path_effective args k :
  save_model_path (effective args) k = save_model_path args k.
Proof.
  unfold save_model_path, save_model_filename.
  destruct (effective_fields args) as (-> & -> & -> & -> & _). reflexivity.
Qed.

Lemma finalize_saves args t w :
  save_error (save_model_path args (ticks w)) = None ->
  finalize args t w
  = (Return tt,
     mkWorld (stdout w ++ [done])
       (mkFS (dirs (fs w))
          ((save_model_path args (ticks w),
            Checkpoint (module_cpu (module_eval (transformer t))))
           :: files (fs w)))
       (S (ticks w))).
Proof.
  destruct w as [out f k]. unfold save_model_path. cbn [ticks]. intro H.
  unfold finalize, torch_save, write_file. run. rewrite H. reflexivity.
Qed.

Lemma finalize_returns args t w w' :
  finalize args t w = (Return tt, w') ->
  save_error (save_model_path args (ticks w)) = None.
Proof.
  destruct w as [out f k]. unfold save_model_path. cbn [ticks].
  unfold finalize, torch_save, write_file. run.
  destruct (save_error _); [discriminate | reflexivity].
Qed.

(** C8.  A run that completes has written its checkpoint under a name
    made of the epoch count, the time of saving with its blanks
    replaced, the content weight and the style weight, in this order;
    the name is a function of these four alone, and with one epoch it
    contains [epoch_1]. *)
Theorem checkpoint_name args w a w' :
  train args w = (Return a, w') ->
  exists k tr rest,
    let now := time_ctime k in
    let name := save_model_filename args now in
    files (fs w')
    = (path_join (save_model_dir args) name, Checkpoint tr) :: rest
    /\ name = ("epoch_" ++ str_int (epochs args) ++ "_" ++ replace_space now
               ++ "_" ++ str_float (content_weight args) ++ "_"
               ++ str_float (style_weight args) ++ ".model")%string
    /\ contains name ("epoch_" ++ str_int (epochs args))
    /\ contains name (replace_space now)
    /\ contains name (str_float (content_weight args))
    /\ contains name (str_float (style_weight args))
    /\ (epochs args = 1 -> contains name "epoch_1")
    /\ (forall args',
          epochs args' = epochs args ->
          content_weight args' = content_weight args ->
          style_weight args' = style_weight args ->
          save_model_filename args' now = name).
Proof.
  intro H. apply train_returns in H.
  destruct H as (-> & w1 & s & w2 & t & w3 & _ & _ & _ & Hf).
  pose proof (finalize_returns _ _ _ Hf) as Hs.
  rewrite (finalize_saves _ _ _ Hs) in Hf. inversion Hf; subst w'. simpl.
  exists (ticks w3), (module_cpu (module_eval (transformer t))), (files (fs w3)).
  cbv zeta. rewrite save_model_path_effective.
  assert (Hname : contains (save_model_filename args (time_ctime (ticks w3)))
                    ("epoch_" ++ str_int (epochs args))).
  { unfold save_model_filename. rewrite <- append_assoc.
    apply contains_prefix. }
  repeat split.
  - exact Hname.
  - unfold save_model_filename.
    do 3 apply contains_after. apply contains_prefix.
  - unfold save_model_filename.
    do 5 apply contains_after. apply contains_prefix.
  - unfold save_model_filename.
    do 7 apply contains_after. apply contains_prefix.
  - intro E. rewrite E in Hname. exact Hname.
  - intros args' E1 E2 E3. unfold save_model_filename.
    rewrite E1, E2, E3. reflexivity.
Qed.

Lemma select_backend_prints args w a w1 :
  select_backend args w = (Return a, w1) ->
  fs w1 = fs w /\ ticks w1 = ticks w
  /\ exists ps, stdout w1 = stdout w ++ map Print ps.
Proof.
  unfold select_backend.
  destruct (truthy (cuda args) && negb cuda_is_available); run;
    intro H; inversion H; subst; simpl; repeat split.
  - eexists [_]. reflexivity.
  - exists []. simpl. rewrite app_nil_r. reflexivity.
Qed.

Lemma banner_prints args w w1 :
  banner args w = (Return tt, w1) ->
  fs w1 = fs w /\ exists ps, stdout w1 = stdout w ++ map Print ps.
Proof.
  unfold banner. run. intro H. inversion H; subst; simpl.
  split; [reflexivity |]. repeat rewrite <- app_assoc. simpl.
  eexists (_ :: _ :: _ :: _ :: _ :: _ :: _ :: _ :: _ :: _ :: _ :: _ :: _
           :: _ :: _ :: _ :: nil). reflexivity.
Qed.

Lemma preamble_prints args w a w1 :
  preamble args w = (Return a, w1) ->
  fs w1 = fs w /\ exists ps, stdout w1 = stdout w ++ map Print ps.
Proof.
  unfold preamble. intro H. bind_inv H. bind_inv H.
  unfold ret in H. inversion H; subst.
  apply select_backend_prints in Hstep. destruct Hstep as (F1 & _ & p1 & S1).
  destruct a1. apply banner_prints in Hstep0.
  destruct Hstep0 as (F2 & p2 & S2).
  split; [congruence |]. exists (p1 ++ p2).
  rewrite S2, S1, map_app, app_assoc. reflexivity.
Qed.

(** C10.  With an epoch count of 0 the loop body never runs: the
    trainer the set-up built comes out of [run_epochs] as it went in, no
    line is logged, and a run whose seed is accepted, whose set-up
    succeeds and whose checkpoint can be written still saves, under a
    name that starts with [epoch_0_], the transformer with the weights
    it was created with; the checkpoint is the one file [train] adds to
    what the set-up left. *)
Theorem zero_epochs_still_saves args w a w1 s w2 :
  epochs args = 0 ->
  seed_accepted args ->
  preamble args w = (Return a, w1) ->
  initialize a w1 = (Return s, w2) ->
  save_error (save_model_path args (ticks w2)) = None ->
  run_epochs a s w2 = (Return (start s), w2)
  /\ train args w
     = (Return a,
        mkWorld (stdout w2 ++ [done])
          (mkFS (dirs (fs w2))
             ((save_model_path args (ticks w2),
               Checkpoint
                 (mkTransformer (TransformerNet (seed args)) false CPU))
              :: files (fs w2)))
          (S (ticks w2)))
  /\ (exists ps, stdout w2 ++ [done] = stdout w ++ map Print ps)
  /\ exists rest,
       save_model_filename args (time_ctime (ticks w2))
       = ("epoch_0_" ++ rest)%string.
Proof.
  intros He Hseed Hp Hi Hs.
  destruct (preamble_returns args w) as [w1' Hp']. rewrite Hp in Hp'.
  inversion Hp'; subst a w1'. clear Hp'.
  destruct (effective_fields args) as (Ee & _ & _ & _ & Es).
  pose proof (@initialize_inv _ _ _ _ Hi) as (Hw2 & _ & _ & Hpar & _).
  assert (Hr : run_epochs (effective args) s w2 = (Return (start s), w2)).
  { unfold run_epochs. rewrite Ee, He. reflexivity. }
  destruct (preamble_prints _ _ Hp) as (Hfs & ps & Hps).
  assert (Hout : stdout w2 = stdout w1) by (rewrite Hw2; reflexivity).
  split; [exact Hr |]. split; [| split].
  - rewrite (@train_seeded args w Hseed).
    rewrite (bind_step _ _ _ Hp), (bind_step _ _ _ Hi),
      (bind_step _ _ _ Hr).
    rewrite <- save_model_path_effective in Hs.
    rewrite (bind_step _ _ _ (finalize_saves _ (start s) _ Hs)).
    unfold ret. rewrite save_model_path_effective.
    unfold module_cpu, module_eval. simpl. rewrite Hpar, Es. reflexivity.
  - exists (ps ++ [[VStr "
Done :)"]]). rewrite Hout, Hps, map_app, <- app_assoc. reflexivity.
  - unfold save_model_filename. rewrite He. eexists. reflexivity.
Qed.

(** ** Exit codes *)

Lemma check_paths_fails_on_vgg args w msg :
  fs_exists (fs w) (vgg_model_dir args) = false ->
  makedirs_error (vgg_model_dir args) = Some msg ->
  check_paths args w
  = (Exit 1,
     mkWorld (stdout w ++ [Print [VExn (OSError msg)]]) (fs w) (ticks w)).
Proof.
  intros He Hm.
  unfold check_paths, try_except_OSError, bind, path_exists, makedirs.
  simpl. rewrite He. simpl. rewrite Hm. reflexivity.
Qed.

Lemma check_paths_fails_on_save args w msg :
  (fs_exists (fs w) (vgg_model_dir args) = true
   \/ makedirs_error (vgg_model_dir args) = None) ->
  fs_exists (with_vgg_dir args (fs w)) (save_model_dir args) = false ->
  makedirs_error (save_model_dir args) = Some msg ->
  check_paths args w
  = (Exit 1,
     mkWorld (stdout w ++ [Print [VExn (OSError msg)]])
       (with_vgg_dir args (fs w)) (ticks w)).
Proof.
  intros Hv He Hm.
  unfold check_paths, try_except_OSError, bind, path_exists, makedirs.
  unfold with_vgg_dir in *. simpl.
  destruct (fs_exists (fs w) (vgg_model_dir args)) eqn:E; simpl.
  - rewrite He. simpl. rewrite Hm. simpl. destruct w as [o f t].
    reflexivity.
  - destruct Hv as [Hv | Hv]; [discriminate |]. rewrite Hv. simpl.
    rewrite He. simpl. rewrite Hm. reflexivity.
Qed.

(** C9.  Without a subcommand [main] prints the usage error and exits
    with code 1.  With the [train] subcommand, when [os.makedirs] fails
    on the VGG directory, or on the save directory after the VGG one
    was found or made, [main] prints the error and exits with code 1.
    In each case the world is left with that one line more and no file
    more: [train] and [stylize] have not started. *)
Theorem exit_code_one w :
  (main NoSubcommand w
   = (Exit 1, mkWorld (stdout w ++ [usage_error]) (fs w) (ticks w)))
  /\ (forall args msg,
        fs_exists (fs w) (vgg_model_dir args) = false ->
        makedirs_error (vgg_model_dir args) = Some msg ->
        main (TrainCommand args) w
        = (Exit 1,
           mkWorld (stdout w ++ [Print [VExn (OSError msg)]]) (fs w)
             (ticks w)))
  /\ (forall args msg,
        (fs_exists (fs w) (vgg_model_dir args) = true
         \/ makedirs_error (vgg_model_dir args) = None) ->
        fs_exists (with_vgg_dir args (fs w)) (save_model_dir args) = false ->
        makedirs_error (save_model_dir args) = Some msg ->
        main (TrainCommand args) w
        = (Exit 1,
           mkWorld (stdout w ++ [Print [VExn (OSError msg)]])
             (with_vgg_dir args (fs w)) (ticks w))
        /\ files (with_vgg_dir args (fs w)) = files (fs w)).
Proof.
  split; [reflexivity |]. split.
  - intros args msg He Hm. unfold main, bind.
    rewrite (check_paths_fails_on_vgg _ _ He Hm). reflexivity.
  - intros args msg Hv He Hm. split.
    + unfold main, bind.
      rewrite (check_paths_fails_on_save _ _ Hv He Hm). reflexivity.
    + unfold with_vgg_dir.
      destruct (fs_exists (fs w) (vgg_model_dir args)); reflexivity.
Qed.

(** ** The order of the batches *)

(** C4, amended.  The loader [train] builds does not shuffle: whatever
    permutation the random generator would give, a pass yields the
    dataset's items in the dataset's own order, cut into batches of the
    configured size, the last one possibly shorter and none empty. *)
Theorem batches_in_dataset_order args (train_dataset : list (Image * Z))
  (perm : nat -> list nat) :
  0 < batch_size args ->
  let batches := Loader.iter perm (make_train_loader args train_dataset) in
  Loader.dl_shuffle (make_train_loader args train_dataset) = false
  /\ List.concat batches = train_dataset
  /\ Forall (fun b => 0 < Z.of_nat (List.length b) <= batch_size args) batches
  /\ Forall (fun b => Z.of_nat (List.length b) = batch_size args)
       (removelast batches).
Proof.
  intros Hbs batches. subst batches.
  unfold Loader.iter, Loader.sampler, make_train_loader, Loader.make.
  cbn [Loader.dl_shuffle Loader.dl_dataset Loader.dl_batch_size].
  set (idx := Loader.batch_sampler (batch_size args) []
                (seq 0 (List.length train_dataset))).
  assert (Hcat : List.concat idx = seq 0 (List.length train_dataset))
    by apply batch_sampler_concat.
  assert (Hin : Forall (Forall (fun i => (i < List.length train_dataset)%nat))
                  idx).
  { apply Forall_forall. intros b Hb. apply Forall_forall. intros i Hi.
    assert (Hc : In i (List.concat idx)).
    { apply in_concat. exists b. split; assumption. }
    rewrite Hcat in Hc. apply in_seq in Hc. lia. }
  assert (Hsz : Forall (fun b => 0 < Z.of_nat (List.length b)
                                 <= batch_size args) idx).
  { apply batch_sampler_sizes; simpl; lia. }
  assert (Hfull : Forall (fun b => Z.of_nat (List.length b) = batch_size args)
                    (removelast idx)).
  { apply batch_sampler_full; simpl; lia. }
  split; [reflexivity |]. split; [| split].
  - rewrite fetch_concat, Hcat.
    exact (fetch_seq [] train_dataset).
  - clear Hcat Hfull. induction idx as [| b idx IH]; simpl; constructor.
    + inversion Hin; subst. inversion Hsz; subst.
      rewrite fetch_length by assumption. assumption.
    + inversion Hin; subst. inversion Hsz; subst. apply IH; assumption.
  - clear Hcat Hsz. induction idx as [| b idx IH]; [constructor |].
    destruct idx as [| b' idx']; [constructor |].
    change (removelast (b :: b' :: idx'))
      with (b :: removelast (b' :: idx')) in Hfull.
    change (map (Loader.fetch train_dataset) (b :: b' :: idx'))
      with (Loader.fetch train_dataset b
            :: map (Loader.fetch train_dataset) (b' :: idx')).
    change (removelast (Loader.fetch train_dataset b
                        :: map (Loader.fetch train_dataset) (b' :: idx')))
      with (Loader.fetch train_dataset b
            :: removelast (map (Loader.fetch train_dataset) (b' :: idx'))).
    inversion Hin; subst. inversion Hfull; subst. constructor.
    + rewrite fetch_length by assumption. assumption.
    + apply IH; assumption.
Qed.

(** ** The loss of a batch *)

Lemma for_sum_fold A S (body : A -> S -> exn + S) (step : A -> S -> S) l :
  forall s,
    (forall a s', In a l -> body a s' = inr (step a s')) ->
    for_sum l body s = inr (fold_left (fun s' a => step a s') l s).
Proof.
  induction l as [| a l IH]; intros s H; simpl.
  - reflexivity.
  - rewrite H by (left; reflexivity). simpl. apply IH.
    intros a' s' Hin. apply H. right. exact Hin.
Qed.

Lemma fold_left_ext_in A B (f g : B -> A -> B) l :
  (forall b a, In a l -> f b a = g b a) ->
  forall b, fold_left f l b = fold_left g l b.
Proof.
  induction l as [| a l IH]; intros H b; simpl; [reflexivity |].
  rewrite H by (left; reflexivity). apply IH.
  intros b' a' Hin. apply H. right. exact Hin.
Qed.

Lemma fold_left_mapped A B C (f : C -> B -> C) (g : A -> B) l :
  forall c, fold_left f (map g l) c = fold_left (fun c a => f c (g a)) l c.
Proof.
  induction l as [| a l IH]; intro c; simpl; [reflexivity | apply IH].
Qed.

Lemma fold_left_indices A B C (f : C -> A -> B -> C) (la : list A) :
  forall (lb : list B) (pa : list A) (pb : list B) c,
    List.length pa = List.length pb ->
    List.length la = List.length lb ->
    fold_left
      (fun c m =>
         match nth_error (pa ++ la) m, nth_error (pb ++ lb) m with
         | Some a, Some b => f c a b
         | _, _ => c
         end)
      (seq (List.length pa) (List.length la)) c
    = fold_left (fun c ab => f c (fst ab) (snd ab)) (combine la lb) c.
Proof.
  induction la as [| a la IH]; intros lb pa pb c Hp Hl.
  - reflexivity.
  - destruct lb as [| b lb]; [discriminate |].
    assert (E1 : nth_error (pa ++ a :: la) (List.length pa) = Some a).
    { rewrite nth_error_app2, Nat.sub_diag by lia. reflexivity. }
    assert (E2 : nth_error (pb ++ b :: lb) (List.length pa) = Some b).
    { rewrite Hp, nth_error_app2, Nat.sub_diag by lia. reflexivity. }
    simpl. rewrite E1, E2.
    specialize (IH lb (pa ++ [a]) (pb ++ [b]) (f c a b)).
    rewrite !length_app in IH. simpl in IH. rewrite Nat.add_1_r in IH.
    rewrite <- !app_assoc in IH. simpl in IH. apply IH.
    + lia.
    + simpl in Hl. lia.
Qed.

Section Sizes.

Variable layers : nat.
Hypothesis shapes : Shapes layers.

Lemma call_vgg_length vgg v : List.length (call_vgg vgg v) = layers.
Proof. unfold call_vgg. rewrite length_map. apply (vgg_layers shapes). Qed.

Lemma call_vgg_rows vgg v f :
  In f (call_vgg vgg v) -> List.length (data f) = List.length (data v).
Proof.
  unfold call_vgg. intro H. apply in_map_iff in H.
  destruct H as (u & <- & Hu). simpl. apply (vgg_rows shapes _ _ _ Hu).
Qed.

Lemma extract_shapes vgg x tr :
  let fy := fst (extract vgg x tr) in
  let fxc := snd (extract vgg x tr) in
  List.length fy = layers /\ List.length fxc = layers
  /\ (forall f, In f fy -> List.length (data f) = List.length (data x))
  /\ (forall f, In f fxc -> List.length (data f) = List.length (data x)).
Proof.
  unfold extract. cbn [fst snd]. repeat split.
  - apply call_vgg_length.
  - apply call_vgg_length.
  - intros f H. apply call_vgg_rows in H. rewrite H. simpl.
    rewrite (subtract_rows shapes). apply (forward_rows shapes).
  - intros f H. apply call_vgg_rows in H. rewrite H. simpl.
    apply (subtract_rows shapes).
Qed.

Lemma getitem_some A (l : list A) i :
  (i < List.length l)%nat -> exists a, nth_error l i = Some a /\ In a l.
Proof.
  intro H. destruct (nth_error l i) as [a |] eqn:E.
  - exists a. split; [reflexivity |]. eapply nth_error_In. exact E.
  - apply nth_error_None in E. lia.
Qed.

(** The content term: layer 1 of both feature lists, the target
    re-wrapped without gradient. *)
Lemma content_mse_value vgg x tr :
  exists fy1 fxc1,
    nth_error (fst (extract vgg x tr)) 1 = Some fy1
    /\ nth_error (snd (extract vgg x tr)) 1 = Some fxc1
    /\ content_mse (fst (extract vgg x tr)) (snd (extract vgg x tr))
       = inr (mse_feat (data fy1) (data fxc1)).
Proof.
  destruct (extract_shapes vgg x tr) as (Ly & Lc & Ry & Rc).
  pose proof (two_layers shapes) as H2.
  destruct (@getitem_some _ (fst (extract vgg x tr)) 1%nat) as (fy1 & Ey & Iy);
    [lia |].
  destruct (@getitem_some _ (snd (extract vgg x tr)) 1%nat) as (fxc1 & Ec & Ic);
    [lia |].
  exists fy1, fxc1. repeat split; try assumption.
  unfold content_mse, getitem. rewrite Ec, Ey. simpl.
  unfold mse_loss. simpl.
  rewrite (Ry _ Iy), (Rc _ Ic), Nat.eqb_refl. reflexivity.
Qed.

(** One style term: the Gram matrix of a layer against the style Gram
    cut to [n] rows. *)
Lemma style_mse_value gs n fy m f g :
  nth_error fy m = Some f ->
  nth_error gs m = Some g ->
  List.length (data f) = n ->
  (n <= List.length (data g))%nat ->
  style_mse gs n fy m
  = inr (mse_gram (gram_matrix (data f)) (firstn n (data g))).
Proof.
  intros Ef Eg Hf Hg. unfold style_mse, getitem. rewrite Eg, Ef. simpl.
  unfold mse_loss. simpl.
  rewrite (gram_rows shapes), length_firstn, Hf, Nat.min_l by exact Hg.
  rewrite Nat.eqb_refl. reflexivity.
Qed.

(** The style loop as a fold over the layers. *)
Lemma style_loop_value args gs n fy :
  List.length fy = List.length gs ->
  (forall f, In f fy -> List.length (data f) = n) ->
  Forall (fun g => (n <= List.length (data g))%nat) gs ->
  for_sum (seq 0 (List.length fy)) (style_term args gs n fy) (inl fzero)
  = inr (fold_left (fun s l => iadd s (smul (style_weight args) l))
           (layer_mses n gs fy) (inl fzero)).
Proof.
  intros Hlen Hf Hg.
  rewrite for_sum_fold
    with (step := fun m s =>
            match nth_error ([] ++ fy) m, nth_error ([] ++ gs) m with
            | Some f, Some g =>
                iadd s (smul (style_weight args)
                          (mse_gram (gram_matrix (data f))
                             (firstn n (data g))))
            | _, _ => s
            end).
  - f_equal.
    transitivity
      (fold_left
         (fun s fg =>
            iadd s (smul (style_weight args)
                      (mse_gram (gram_matrix (data (fst fg)))
                         (firstn n (data (snd fg))))))
         (combine fy gs) (inl fzero)).
    + exact (fold_left_indices
               (fun s f g =>
                  iadd s (smul (style_weight args)
                            (mse_gram (gram_matrix (data f))
                               (firstn n (data g)))))
               fy gs [] [] (inl fzero) eq_refl Hlen).
    + unfold layer_mses. rewrite fold_left_mapped. reflexivity.
  - intros m s Hm. apply in_seq in Hm. simpl in Hm. simpl app.
    destruct (@getitem_some _ fy m) as (f & Ef & If); [lia |].
    destruct (@getitem_some _ gs m) as (g & Eg & Ig); [lia |].
    rewrite Ef, Eg. unfold style_term.
    rewrite (@style_mse_value gs n fy m f g Ef Eg (Hf _ If)).
    + reflexivity.
    + rewrite Forall_forall in Hg. apply Hg. exact Ig.
Qed.

(** The step computes its two losses whenever the style target has one
    entry per layer with at least [n] rows each. *)
Lemma losses_value args vgg gs n x tr :
  List.length gs = layers ->
  Forall (fun g => (n <= List.length (data g))%nat) gs ->
  n = List.length (data x) ->
  exists fy1 fxc1,
    nth_error (fst (extract vgg x tr)) 1 = Some fy1
    /\ nth_error (snd (extract vgg x tr)) 1 = Some fxc1
    /\ losses args vgg gs n x tr
       = inr (smul (content_weight args) (mse_feat (data fy1) (data fxc1)),
              fold_left (fun s l => iadd s (smul (style_weight args) l))
                (layer_mses n gs (fst (extract vgg x tr))) (inl fzero)).
Proof.
  intros Hgs Hrows Hn.
  destruct (content_mse_value vgg x tr) as (fy1 & fxc1 & Ey & Ec & Hc).
  destruct (extract_shapes vgg x tr) as (Ly & _ & Ry & _).
  exists fy1, fxc1. repeat split; try assumption.
  unfold losses. destruct (extract vgg x tr) as [fy fxc]. cbn [fst snd] in *.
  rewrite Hc. simpl.
  rewrite style_loop_value; [reflexivity | congruence | | exact Hrows].
  intros f Hf. rewrite Hn. apply Ry. exact Hf.
Qed.

End Sizes.

(** The activations of [extract] are those of the collaborators: the
    extractor on the stylized batch, mean subtracted, and on the content
    batch, mean subtracted. *)
Lemma extract_data vgg x tr :
  map (@data _) (fst (extract vgg x tr))
  = stylized_activations vgg (params tr) (training tr) (data x)
  /\ map (@data _) (snd (extract vgg x tr)) = content_activations vgg (data x).
Proof.
  unfold extract, call_vgg, stylized_activations, content_activations.
  cbn [fst snd]. rewrite !map_map. cbn [data module_output in_place var_apply
    Variable_volatile]. rewrite !map_id. split; reflexivity.
Qed.

Lemma layer_mses_data n gs : forall fy,
  layer_mses n gs fy = gram_mses n gs (map (@data _) fy).
Proof.
  unfold layer_mses, gram_mses. revert gs.
  intros gs fy. revert gs. induction fy as [| f fy IH]; intros [| g gs];
    simpl; try reflexivity.
  rewrite IH. reflexivity.
Qed.

Lemma style_sum_cons args m0 ms :
  style_sum args (m0 :: ms)
  = inr (fold_left (fun s l => ladd s (smul (style_weight args) l)) ms
           (ladd_const (smul (style_weight args) m0) fzero)).
Proof.
  unfold style_sum. simpl.
  generalize (ladd_const (smul (style_weight args) m0) fzero).
  induction ms as [| m ms IH]; intro l; simpl; [reflexivity | apply IH].
Qed.

(** The two losses of a step, from the collaborators alone. *)
Lemma losses_by_layers layers args vgg gs n x tr :
  Shapes layers ->
  List.length gs = layers ->
  Forall (fun g => (n <= List.length (data g))%nat) gs ->
  n = List.length (data x) ->
  let acts := stylized_activations vgg (params tr) (training tr) (data x) in
  exists fy1 fxc1 m0 ms,
    nth_error acts 1 = Some fy1
    /\ nth_error (content_activations vgg (data x)) 1 = Some fxc1
    /\ gram_mses n gs acts = m0 :: ms
    /\ losses args vgg gs n x tr
       = inr (smul (content_weight args) (mse_feat fy1 fxc1),
              style_sum args (m0 :: ms)).
Proof.
  intros shapes Hgs Hrows Hn acts.
  destruct (@losses_value layers shapes args vgg gs n x tr Hgs Hrows Hn)
    as (fy1 & fxc1 & Ey & Ec & Hl).
  destruct (extract_data vgg x tr) as (Dy & Dc).
  destruct (@extract_shapes layers shapes vgg x tr) as (Ly & _ & _ & _).
  rewrite layer_mses_data, Dy in Hl. fold acts in Hl.
  apply (map_nth_error (@data _)) in Ey. rewrite Dy in Ey. fold acts in Ey.
  apply (map_nth_error (@data _)) in Ec. rewrite Dc in Ec.
  destruct (gram_mses n gs acts) as [| m0 ms] eqn:E.
  - exfalso. apply (f_equal (@List.length _)) in E.
    unfold gram_mses in E. unfold acts in E. rewrite <- Dy in E.
    rewrite length_map, length_combine, length_map, Ly, Hgs in E.
    pose proof (two_layers shapes). cbn [List.length] in E. lia.
  - exists (data fy1), (data fxc1), m0, ms.
    repeat split; try assumption.
Qed.

Lemma batch_input_rows layers args xs :
  Shapes layers ->
  fst (batch_input args xs) = List.length xs
  /\ List.length (data (snd (batch_input args xs))) = List.length xs.
Proof.
  intro shapes. unfold batch_input. cbn [fst snd].
  rewrite length_map. split; [reflexivity |].
  destruct (truthy (cuda args));
    unfold Variable_new, var_apply, tensor_cuda; cbn [data];
    rewrite (preprocess_rows shapes), length_map; reflexivity.
Qed.

Lemma style_target_rows layers args vgg gs :
  Shapes layers ->
  0 < batch_size args ->
  style_target args vgg = inr gs ->
  List.length gs = layers
  /\ Forall (fun g => List.length (data g) = Z.to_nat (batch_size args)) gs.
Proof.
  intros shapes Hbs. unfold style_target.
  destruct (tensor_load_rgbimage _ _ _) as [e | style]; simpl;
    [discriminate |].
  rewrite (repeat_rows shapes) by exact Hbs. simpl.
  intro H. inversion H; subst gs; clear H. split.
  - rewrite length_map. apply (@call_vgg_length layers shapes).
  - apply Forall_forall. intros g Hg. apply in_map_iff in Hg.
    destruct Hg as (f & <- & Hf). simpl.
    rewrite (gram_rows shapes). rewrite (@call_vgg_rows layers shapes _ _ _ Hf).
    simpl. rewrite (subtract_rows shapes).
    destruct (truthy (cuda args)); unfold tensor_cuda;
      rewrite (preprocess_rows shapes), repeat_length; reflexivity.
Qed.

(** C3.  The style target has one Gram batch per extractor layer, each
    with as many rows as the configured batch size.  For a batch of at
    most that many items, a final partial batch among them, the style
    term of every layer is the MSE between the Gram matrix of the
    layer's stylized activations and the first rows of the layer's style
    Gram, exactly as many as the batch has items; the two losses are
    computed, nothing is raised, and the style loss is the sum of these
    terms, weighted. *)
Theorem partial_batch_is_sliced layers args vgg gs xs tr :
  Shapes layers ->
  0 < batch_size args ->
  style_target args vgg = inr gs ->
  Z.of_nat (List.length xs) <= batch_size args ->
  let n_batch := fst (batch_input args xs) in
  let x := snd (batch_input args xs) in
  let acts := stylized_activations vgg (params tr) (training tr) (data x) in
  List.length gs = layers
  /\ Forall (fun g => Z.of_nat (List.length (data g)) = batch_size args) gs
  /\ (forall m a g,
        nth_error acts m = Some a ->
        nth_error gs m = Some g ->
        List.length (firstn n_batch (data g)) = List.length xs
        /\ style_mse gs n_batch (fst (extract vgg x tr)) m
           = inr (mse_gram (gram_matrix a) (firstn n_batch (data g))))
  /\ exists content_loss style_loss,
       losses args vgg gs n_batch x tr = inr (content_loss, inr style_loss)
       /\ style_sum args (gram_mses n_batch gs acts) = inr style_loss.
Proof.
  intros shapes Hbs Hgs Hxs n_batch x acts.
  destruct (@style_target_rows layers args vgg gs shapes Hbs Hgs) as (Hlen & Hrows).
  destruct (@batch_input_rows layers args xs shapes) as (Hn & Hx).
  fold n_batch in Hn. fold x in Hx.
  assert (Hle : Forall (fun g => (n_batch <= List.length (data g))%nat) gs).
  { eapply Forall_impl; [| exact Hrows]. simpl. intros g Hg.
    rewrite Hg, Hn. lia. }
  assert (Hnx : n_batch = List.length (data x)) by congruence.
  split; [exact Hlen |]. split; [| split].
  - eapply Forall_impl; [| exact Hrows]. simpl. intros g Hg.
    rewrite Hg. lia.
  - intros m a g Ea Eg.
    assert (Ig : In g gs) by (eapply nth_error_In; exact Eg).
    rewrite Forall_forall in Hle. specialize (Hle g Ig).
    split; [rewrite length_firstn, Nat.min_l by exact Hle; exact Hn |].
    destruct (extract_data vgg x tr) as (Dy & _).
    destruct (@extract_shapes layers shapes vgg x tr) as (_ & _ & Ry & _).
    unfold acts in Ea. rewrite <- Dy in Ea.
    rewrite nth_error_map in Ea.
    destruct (nth_error (fst (extract vgg x tr)) m) as [f |] eqn:Ef;
      [| discriminate].
    simpl in Ea. inversion Ea; subst a.
    apply (@style_mse_value layers shapes gs n_batch _ m f g Ef Eg);
      [| exact Hle].
    rewrite Hnx. apply Ry. eapply nth_error_In. exact Ef.
  - destruct (@losses_by_layers layers args vgg gs n_batch x tr shapes Hlen
                Hle Hnx) as (fy1 & fxc1 & m0 & ms & _ & _ & Em & Hl).
    fold acts in Em. rewrite Em. rewrite Hl, style_sum_cons.
    eexists. eexists. split; reflexivity.
Qed.


(** * Further properties of the driver *)

(** ** What [train] does to the file system *)

Lemma keeps_files_ret A (a : A) : keeps_files (ret a).
Proof. intro w. split; [reflexivity | discriminate]. Qed.

Lemma keeps_files_raise A e : keeps_files (@raise file A e).
Proof. intro w. split; [reflexivity | discriminate]. Qed.

Lemma keeps_files_lift A (r : exn + A) : keeps_files (lift r).
Proof.
  destruct r; [apply keeps_files_raise | apply keeps_files_ret].
Qed.

Lemma keeps_files_print vs : keeps_files (print (Obj := file) vs).
Proof. intro w. split; [reflexivity | discriminate]. Qed.

Lemma keeps_files_print_mesg m : keeps_files (print_mesg (Obj := file) m).
Proof. intro w. split; [reflexivity | discriminate]. Qed.

Lemma keeps_files_ctime : keeps_files ctime.
Proof. intro w. split; [reflexivity | discriminate]. Qed.

Lemma keeps_files_bind A B (c : Py A) (k : A -> Py B) :
  keeps_files c -> (forall a, keeps_files (k a)) -> keeps_files (bind c k).
Proof.
  intros Hc Hk w. unfold bind. destruct (Hc w) as [Hf Hn].
  destruct (c w) as [[a | e | n] w1]; simpl in *.
  - destruct (Hk a w1) as [Hf1 Hn1]. split; [congruence | exact Hn1].
  - split; [exact Hf | discriminate].
  - exfalso. apply (Hn n). reflexivity.
Qed.

Lemma keeps_files_for_each A S (body : A -> S -> Py S) l :
  (forall a s, keeps_files (body a s)) ->
  forall s, keeps_files (for_each l body s).
Proof.
  intro Hb. induction l as [| a l IH]; intro s; simpl.
  - apply keeps_files_ret.
  - apply keeps_files_bind; [apply Hb | exact IH].
Qed.

Ltac keeps :=
  repeat match goal with
    | |- keeps_files (bind _ _) => apply keeps_files_bind
    | |- keeps_files (ret _) => apply keeps_files_ret
    | |- keeps_files (raise _) => apply keeps_files_raise
    | |- keeps_files (lift _) => apply keeps_files_lift
    | |- keeps_files (print _) => apply keeps_files_print
    | |- keeps_files (print_mesg _) => apply keeps_files_print_mesg
    | |- keeps_files ctime => apply keeps_files_ctime
    | |- forall _, _ => intro
    end.

Lemma keeps_files_log args total e batch_id r :
  keeps_files (log args total e batch_id r).
Proof.
  unfold log. destruct (log_interval args =? 0); [keeps |].
  destruct ((batch_id + 1) mod log_interval args =? 0); keeps.
Qed.

Lemma keeps_files_train_batch args vgg total e b r :
  keeps_files (train_batch args vgg total e b r).
Proof.
  unfold train_batch. destruct b as [batch_id xs].
  destruct (batch_input args xs) as [n x].
  apply keeps_files_bind; [apply keeps_files_lift |].
  intros [content_loss style_loss]. destruct (Adam_step _ _ _) as [o p].
  apply keeps_files_bind; [apply keeps_files_lift |]. intro s.
  apply keeps_files_bind; [apply keeps_files_log |]. intro u.
  apply keeps_files_ret.
Qed.

Lemma keeps_files_train_epoch args vgg loader e t :
  keeps_files (train_epoch args vgg loader e t).
Proof.
  unfold train_epoch, run_batches.
  apply keeps_files_bind; [| intro; apply keeps_files_ret].
  apply keeps_files_for_each. intros. apply keeps_files_train_batch.
Qed.

Lemma keeps_files_run_epochs args s : keeps_files (run_epochs args s).
Proof.
  unfold run_epochs. apply keeps_files_for_each.
  intros. apply keeps_files_train_epoch.
Qed.

Lemma fetched_effective args f : fetched (effective args) f = fetched args f.
Proof.
  unfold fetched, effective.
  destruct (truthy (cuda args) && negb cuda_is_available); reflexivity.
Qed.

(** The set-up leaves the file system as it found it or as
    [utils.init_vgg16] left it, and does not leave the process. *)
Lemma initialize_effects args w :
  (forall n, fst (initialize args w) <> Exit n)
  /\ (fs (snd (initialize args w)) = fs w
      \/ fs (snd (initialize args w)) = fetched args (fs w)).
Proof.
  unfold initialize, bind.
  destruct (ImageFolder (dataset args) (image_size args)) as [e | ds];
    simpl; [split; [discriminate | left; reflexivity] |].
  pose proof (utils_init_vgg16_outcome (vgg_model_dir args) w) as [Hw Hn].
  destruct (utils_init_vgg16 (vgg_model_dir args) w) as [[[] | e | n] w1];
    simpl in Hw, Hn; subst w1.
  - pose proof (load_state_dict_outcome
                  (path_join (vgg_model_dir args) "vgg16.weight")
                  (mkWorld (stdout w)
                     (snd (init_vgg16 Weights (vgg_model_dir args) (fs w)))
                     (ticks w))) as [Hw Hl].
    destruct (load_state_dict _ _) as [[state | e | n] w1];
      simpl in Hw, Hl; subst w1.
    + destruct (style_target args _) as [e | gs]; simpl;
        (split; [discriminate | right; reflexivity]).
    + split; [discriminate | right; reflexivity].
    + exfalso. apply (Hl n). reflexivity.
  - split; [discriminate | right; reflexivity].
  - exfalso. apply (Hn n). reflexivity.
Qed.

Lemma keeps_files_preamble args : keeps_files (preamble args).
Proof.
  unfold preamble, select_backend, banner.
  destruct (truthy (cuda args) && negb cuda_is_available); keeps.
Qed.

(** What [finalize] leaves, whether the save succeeds or not. *)
Lemma finalize_outcome args t w :
  match save_error (save_model_path args (ticks w)) with
  | Some msg =>
      fst (finalize args t w) = Raise (IOError msg)
      /\ fs (snd (finalize args t w)) = fs w
      /\ stdout (snd (finalize args t w)) = stdout w
  | None =>
      finalize args t w
      = (Return tt,
         mkWorld (stdout w ++ [done])
           (mkFS (dirs (fs w))
              ((save_model_path args (ticks w),
                Checkpoint (module_cpu (module_eval (transformer t))))
               :: files (fs w)))
           (S (ticks w)))
  end.
Proof.
  destruct (save_error (save_model_path args (ticks w))) as [msg |] eqn:E.
  - destruct w as [out f k]. unfold save_model_path in E. cbn [ticks] in E.
    unfold finalize, torch_save, write_file. run. rewrite E.
    repeat split.
  - apply finalize_saves. exact E.
Qed.

Lemma train_file_effects args w :
  (forall n, fst (train args w) <> Exit n)
  /\ (forall e w',
        train args w = (Raise e, w') ->
        fs w' = fs w \/ fs w' = fetched args (fs w))
  /\ (forall a w',
        train args w = (Return a, w') ->
        exists k tr,
          fs w'
          = mkFS (dirs (fetched args (fs w)))
              ((save_model_path args k, Checkpoint tr)
               :: files (fetched args (fs w)))).
Proof.
  destruct (seed_accepted_dec args) as [Hseed | Hseed].
  2: { rewrite (@train_bad_seed args w Hseed).
       repeat split; try discriminate.
       intros e w' H. inversion H; subst. left. reflexivity. }
  destruct (@train_phases args w Hseed) as (w1 & Hp & Ht).
  pose proof (keeps_files_preamble args w) as [Fp _]. rewrite Hp in Fp.
  simpl in Fp.
  set (a := effective args) in *.
  pose proof (initialize_effects a w1) as [Ni Fi].
  unfold a in Fi. rewrite fetched_effective, Fp in Fi. fold a in Fi.
  rewrite Ht. unfold bind.
  destruct (initialize a w1) as [[s | e | n] w2] eqn:Ei; simpl in Fi, Ni.
  2: { repeat split; try discriminate.
       intros e0 w' H. inversion H; subst. exact Fi. }
  2: { exfalso. apply (Ni n). reflexivity. }
  assert (Fs : fs w2 = fetched args (fs w)).
  { pose proof (@initialize_inv _ _ _ _ Ei) as (-> & _). simpl.
    unfold a. rewrite fetched_effective, Fp. reflexivity. }
  pose proof (keeps_files_run_epochs a s w2) as [Fr Nr].
  destruct (run_epochs a s w2) as [[t | e | n] w3]; simpl in Fr, Nr.
  2: { repeat split; try discriminate.
       intros e0 w' H. inversion H; subst. right. congruence. }
  2: { exfalso. apply (Nr n). reflexivity. }
  pose proof (finalize_outcome a t w3) as Hf.
  destruct (save_error (save_model_path a (ticks w3))) as [msg |].
  - destruct Hf as (H1 & H2 & _).
    destruct (finalize a t w3) as [[u | e | n] w4]; simpl in H1, H2;
      try discriminate.
    repeat split; try discriminate.
    intros e0 w' H. inversion H; subst. right. congruence.
  - rewrite Hf. unfold ret. repeat split; try discriminate.
    intros a0 w' H. inversion H; subst w'. simpl.
    exists (ticks w3), (module_cpu (module_eval (transformer t))).
    unfold a. rewrite save_model_path_effective.
    rewrite Fr, Fs. reflexivity.
Qed.

(** X1.  [train] itself writes one file, the checkpoint, as its last
    step, and never ends the process through [sys.exit].  A run that
    raises leaves the file system as it found it or as
    [utils.init_vgg16] left it; a run that returns has added the
    checkpoint, and nothing else, to what [utils.init_vgg16] left. *)
Theorem train_writes_one_checkpoint args w :
  (forall n, fst (train args w) <> Exit n)
  /\ (forall e w',
        train args w = (Raise e, w') ->
        fs w' = fs w \/ fs w' = fetched args (fs w))
  /\ (forall a w',
        train args w = (Return a, w') ->
        exists k tr,
          fs w'
          = mkFS (dirs (fetched args (fs w)))
              ((save_model_path args k, Checkpoint tr)
               :: files (fetched args (fs w)))).
Proof. exact (train_file_effects args w). Qed.

(** ** The checkpoint read back *)

Lemma torch_load_head p tr rest out f k :
  torch_load p (mkWorld out (mkFS f ((p, Checkpoint tr) :: rest)) k)
  = (Return tr, mkWorld out (mkFS f ((p, Checkpoint tr) :: rest)) k).
Proof.
  unfold torch_load. simpl. rewrite String.eqb_refl. reflexivity.
Qed.

Lemma checkpoint_reads_back args w a w' :
  train args w = (Return a, w') ->
  exists k tr,
    torch_load (save_model_path args k) w' = (Return tr, w')
    /\ training tr = false
    /\ device tr = CPU.
Proof.
  intro H. apply train_returns in H.
  destruct H as (-> & w1 & s & w2 & t & w3 & _ & _ & _ & Hf).
  pose proof (finalize_returns _ _ _ Hf) as Hs.
  rewrite (finalize_saves _ _ _ Hs) in Hf. inversion Hf; subst w'.
  exists (ticks w3), (module_cpu (module_eval (transformer t))).
  rewrite <- save_model_path_effective.
  split; [apply torch_load_head | split; reflexivity].
Qed.

(** X2.  The checkpoint of a completed run can be read back from the
    path it was saved under, and what is read is a transformer in
    inference mode that lives on the CPU, whatever device it was
    trained on. *)
Theorem checkpoint_round_trip args w a w' :
  train args w = (Return a, w') ->
  exists k tr,
    torch_load (save_model_path args k) w' = (Return tr, w')
    /\ training tr = false
    /\ device tr = CPU.
Proof. exact (@checkpoint_reads_back args w a w'). Qed.

(** ** [stylize] *)

Lemma write_file_outcome p f (w : World file) :
  match save_error p with
  | Some msg => write_file p f w = (Raise (IOError msg), w)
  | None =>
      write_file p f w
      = (Return tt,
         mkWorld (stdout w) (mkFS (dirs (fs w)) ((p, f) :: files (fs w)))
           (ticks w))
  end.
Proof. unfold write_file. destruct (save_error p); reflexivity. Qed.

Lemma torch_load_world p w : snd (torch_load p w) = w.
Proof.
  unfold torch_load.
  destruct (find _ _) as [[q [t | i | s]] |]; reflexivity.
Qed.

Lemma stylize_effects a w :
  let r := stylize a w in
  stdout (snd r) = stdout w
  /\ dirs (fs (snd r)) = dirs (fs w)
  /\ ticks (snd r) = ticks w
  /\ (forall n, fst r <> Exit n)
  /\ (files (fs (snd r)) = files (fs w)
      \/ exists i,
           fst r = Return tt
           /\ files (fs (snd r)) = (output_image a, Picture i) :: files (fs w)).
Proof.
  unfold stylize, bind.
  destruct (tensor_load_rgbimage _ _ _) as [e | img]; simpl.
  - repeat split; try discriminate. left. reflexivity.
  - pose proof (torch_load_world (model a) w) as Hw.
    destruct (torch_load (model a) w) as [[m | e | n] w1] eqn:El;
      simpl in Hw; subst w1.
    + destruct (getitem _ 0) as [e | out0]; simpl.
      * repeat split; try discriminate. left. reflexivity.
      * unfold tensor_save_bgrimage.
        pose proof (write_file_outcome (output_image a) (Picture out0) w)
          as Hf.
        destruct (save_error (output_image a)); rewrite Hf; simpl.
        -- repeat split; try discriminate. left. reflexivity.
        -- repeat split; try discriminate. right. exists out0.
           split; reflexivity.
    + repeat split; try discriminate. left. reflexivity.
    + exfalso. unfold torch_load in El.
      destruct (find _ _) as [[q [t | i | s]] |]; discriminate.
Qed.

(** X3.  [stylize] prints nothing, makes no directory and never ends
    the process; it leaves the files as they are or, when it returns,
    with one picture more, at the output path. *)
Theorem stylize_writes_at_most_one_picture a w :
  let r := stylize a w in
  stdout (snd r) = stdout w
  /\ dirs (fs (snd r)) = dirs (fs w)
  /\ ticks (snd r) = ticks w
  /\ (forall n, fst r <> Exit n)
  /\ (files (fs (snd r)) = files (fs w)
      \/ exists i,
           fst r = Return tt
           /\ files (fs (snd r)) = (output_image a, Picture i) :: files (fs w)).
Proof. exact (stylize_effects a w). Qed.

Lemma stylize_value layers a w img m :
  Shapes layers ->
  tensor_load_rgbimage (content_image a) None (content_scale a) = inr img ->
  torch_load (model a) w = (Return m, w) ->
  save_error (output_image a) = None ->
  exists out0,
    nth_error
      (transformer_forward (params m) (training m) (preprocess_batch [img]))
      0 = Some out0
    /\ stylize a w
       = (Return tt,
          mkWorld (stdout w)
            (mkFS (dirs (fs w))
               ((output_image a, Picture out0) :: files (fs w)))
            (ticks w))
    /\ (output_image a <> model a ->
        torch_load (model a) (snd (stylize a w))
        = (Return m, snd (stylize a w))).
Proof.
  intros shapes Hi Hm Hs.
  destruct (transformer_forward (params m) (training m)
              (preprocess_batch [img])) as [| out0 rest] eqn:Ef.
  { exfalso. apply (f_equal (@List.length _)) in Ef.
    rewrite (forward_rows shapes), (preprocess_rows shapes) in Ef.
    discriminate. }
  exists out0. split; [reflexivity |].
  assert (Hst : stylize a w
                = (Return tt,
                   mkWorld (stdout w)
                     (mkFS (dirs (fs w))
                        ((output_image a, Picture out0) :: files (fs w)))
                     (ticks w))).
  { unfold stylize. unfold bind at 1. rewrite Hi. simpl.
    unfold bind at 1. rewrite Hm. simpl. unfold getitem.
    unfold bind at 1. simpl. rewrite Ef. simpl.
    unfold tensor_save_bgrimage.
    pose proof (write_file_outcome (output_image a) (Picture out0) w) as Hf.
    rewrite Hs in Hf. exact Hf. }
  split; [exact Hst |].
  intro Hne. rewrite Hst. simpl.
  unfold torch_load in *. simpl.
  destruct (String.eqb (model a) (output_image a)) eqn:E.
  - apply String.eqb_eq in E. congruence.
  - destruct (find _ (files (fs w))) as [[q [t | i | s]] |];
      inversion Hm; subst. reflexivity.
Qed.

(** X4.  When the content image loads, the model path holds a
    checkpoint and the output can be written, [stylize] returns: the
    picture it writes is the first row of the checkpoint's forward pass,
    in the mode the checkpoint was saved in, on the preprocessed
    one-image batch; and unless the output path is the model path, the
    checkpoint reads back unchanged afterwards. *)
Theorem stylize_returns layers a w img m :
  Shapes layers ->
  tensor_load_rgbimage (content_image a) None (content_scale a) = inr img ->
  torch_load (model a) w = (Return m, w) ->
  save_error (output_image a) = None ->
  exists out0,
    nth_error
      (transformer_forward (params m) (training m) (preprocess_batch [img]))
      0 = Some out0
    /\ stylize a w
       = (Return tt,
          mkWorld (stdout w)
            (mkFS (dirs (fs w))
               ((output_image a, Picture out0) :: files (fs w)))
            (ticks w))
    /\ (output_image a <> model a ->
        torch_load (model a) (snd (stylize a w))
        = (Return m, snd (stylize a w))).
Proof. exact (@stylize_value layers a w img m). Qed.


(** ** [check_paths] and [main] *)

Lemma fs_exists_ensure_dir p f : fs_exists (ensure_dir p f) p = true.
Proof.
  unfold ensure_dir. destruct (fs_exists f p) eqn:E; [exact E |].
  unfold fs_exists. simpl. rewrite String.eqb_refl. reflexivity.
Qed.

Lemma fs_exists_kept p q f :
  fs_exists f q = true -> fs_exists (ensure_dir p f) q = true.
Proof.
  intro H. unfold ensure_dir. destruct (fs_exists f p); [exact H |].
  unfold fs_exists in *. simpl.
  destruct (String.eqb q p); [reflexivity | exact H].
Qed.

Lemma ensure_dir_present p f : fs_exists f p = true -> ensure_dir p f = f.
Proof. unfold ensure_dir. intros ->. reflexivity. Qed.

(** What the guarded [os.makedirs] of lines 141-144 does. *)
Lemma guarded_makedirs p (w : World file) :
  bind (path_exists p)
    (fun e => if negb e then makedirs p else ret tt) w
  = match fs_exists (fs w) p, makedirs_error p with
    | false, Some msg => (Raise (OSError msg), w)
    | _, _ => (Return tt, mkWorld (stdout w) (ensure_dir p (fs w)) (ticks w))
    end.
Proof.
  unfold bind, path_exists, makedirs, ensure_dir.
  destruct w as [out f k]. simpl.
  destruct (fs_exists f p); simpl; [destruct (makedirs_error p); reflexivity |].
  destruct (makedirs_error p); reflexivity.
Qed.

(** What [check_paths] does, in every case. *)
Lemma check_paths_outcome args w :
  check_paths args w
  = match fs_exists (fs w) (vgg_model_dir args),
          makedirs_error (vgg_model_dir args) with
    | false, Some msg =>
        (Exit 1,
         mkWorld (stdout w ++ [Print [VExn (OSError msg)]]) (fs w) (ticks w))
    | _, _ =>
        let f1 := ensure_dir (vgg_model_dir args) (fs w) in
        match fs_exists f1 (save_model_dir args),
              makedirs_error (save_model_dir args) with
        | false, Some msg =>
            (Exit 1,
             mkWorld (stdout w ++ [Print [VExn (OSError msg)]]) f1 (ticks w))
        | _, _ =>
            (Return tt,
             mkWorld (stdout w) (ensure_dir (save_model_dir args) f1)
               (ticks w))
        end
    end.
Proof.
  unfold check_paths, try_except_OSError.
  change (bind (path_exists (vgg_model_dir args)) _ w)
    with (bind (bind (path_exists (vgg_model_dir args))
                  (fun e => if negb e then makedirs (vgg_model_dir args)
                            else ret tt))
            (fun _ => bind (path_exists (save_model_dir args))
                        (fun e => if negb e
                                  then makedirs (save_model_dir args)
                                  else ret tt)) w).
  unfold bind at 1. rewrite guarded_makedirs.
  destruct (fs_exists (fs w) (vgg_model_dir args)) eqn:E1;
    [| destruct (makedirs_error (vgg_model_dir args)) eqn:M1];
    try reflexivity;
    rewrite guarded_makedirs; cbn [fs stdout ticks];
    destruct (fs_exists _ (save_model_dir args));
    try reflexivity;
    destruct (makedirs_error (save_model_dir args)); reflexivity.
Qed.

Lemma check_paths_effects args w :
  let r := check_paths args w in
  (fst r = Return tt \/ fst r = Exit 1)
  /\ files (fs (snd r)) = files (fs w)
  /\ (fst r = Return tt ->
      stdout (snd r) = stdout w
      /\ fs_exists (fs (snd r)) (vgg_model_dir args) = true
      /\ fs_exists (fs (snd r)) (save_model_dir args) = true
      /\ check_paths args (snd r) = (Return tt, snd r)).
Proof.
  cbv zeta. rewrite check_paths_outcome.
  assert (Hfiles : forall p f, files (ensure_dir p f) = files f).
  { intros p f. unfold ensure_dir. destruct (fs_exists f p); reflexivity. }
  assert (Hok : let f2 := ensure_dir (save_model_dir args)
                            (ensure_dir (vgg_model_dir args) (fs w)) in
                fs_exists f2 (vgg_model_dir args) = true
                /\ fs_exists f2 (save_model_dir args) = true
                /\ check_paths args (mkWorld (stdout w) f2 (ticks w))
                   = (Return tt, mkWorld (stdout w) f2 (ticks w))).
  { cbv zeta.
    pose proof (fs_exists_kept (save_model_dir args) (vgg_model_dir args) _
                  (fs_exists_ensure_dir (vgg_model_dir args) (fs w))) as H1.
    pose proof (fs_exists_ensure_dir (save_model_dir args)
                  (ensure_dir (vgg_model_dir args) (fs w))) as H2.
    split; [exact H1 |]. split; [exact H2 |].
    rewrite check_paths_outcome. cbn [fs stdout ticks]. rewrite H1.
    cbv zeta. rewrite (ensure_dir_present _ _ H1), H2.
    rewrite (ensure_dir_present _ _ H2). reflexivity. }
  cbv zeta in Hok.
  destruct (fs_exists (fs w) (vgg_model_dir args)) eqn:E1;
    [| destruct (makedirs_error (vgg_model_dir args)) eqn:M1];
    cbv zeta;
    try (destruct (fs_exists (ensure_dir (vgg_model_dir args) (fs w))
                     (save_model_dir args)) eqn:E2;
         [| destruct (makedirs_error (save_model_dir args)) eqn:M2]);
    cbn [fst snd fs stdout ticks];
    repeat split;
    try (left; reflexivity); try (right; reflexivity);
    try discriminate; rewrite ?Hfiles; try reflexivity;
    try apply Hok.
Qed.

(** X6.  [check_paths] never lets an exception out: it returns or it
    exits with code 1.  It writes no file and prints only when it
    exits.  When it returns, both directories exist, and a second call
    finds them and changes nothing. *)
Theorem check_paths_returns_or_exits args w :
  let r := check_paths args w in
  (fst r = Return tt \/ fst r = Exit 1)
  /\ files (fs (snd r)) = files (fs w)
  /\ (fst r = Return tt ->
      stdout (snd r) = stdout w
      /\ fs_exists (fs (snd r)) (vgg_model_dir args) = true
      /\ fs_exists (fs (snd r)) (save_model_dir args) = true
      /\ check_paths args (snd r) = (Return tt, snd r)).
Proof. exact (check_paths_effects args w). Qed.

(** X7.  Once [parse_args] has returned a namespace (line 185), what
    follows ends the process with status 0 or 1 (a raised exception
    counts as 1): 0 exactly when it returns.  For the [train]
    subcommand that is when [check_paths] returns and [train], started
    in the world [check_paths] leaves, returns; then the checkpoint can
    be read back. *)
Theorem status_after_parsing ns w :
  (exit_code (main ns w) = 0 \/ exit_code (main ns w) = 1)
  /\ (exit_code (main ns w) = 0 <-> fst (main ns w) = Return tt)
  /\ forall args,
       ns = TrainCommand args ->
       (fst (main ns w) = Return tt <->
        fst (check_paths args w) = Return tt
        /\ exists a,
             fst (train args (snd (check_paths args w))) = Return a)
       /\ (fst (main ns w) = Return tt ->
           exists k tr,
             torch_load (save_model_path args k) (snd (main ns w))
             = (Return tr, snd (main ns w))).
Proof.
  assert (Hcode : forall r : outcome unit * World file,
             (forall n, fst r = Exit n -> n = 1) ->
             (exit_code r = 0 \/ exit_code r = 1)
             /\ (exit_code r = 0 <-> fst r = Return tt)).
  { intros [[[] | e | n] w0] H; unfold exit_code; simpl in *.
    - split; [left; reflexivity | split; reflexivity].
    - split; [right; reflexivity | split; discriminate].
    - rewrite (H n eq_refl). split; [right; reflexivity |].
      split; discriminate. }
  assert (Hexit : forall n, fst (main ns w) = Exit n -> n = 1).
  { intros n. destruct ns as [| args | a]; simpl.
    - intro H. inversion H. reflexivity.
    - unfold bind.
      pose proof (check_paths_effects args w) as [Hc _].
      destruct (check_paths args w) as [[[] | e | m] w1]; simpl in *.
      + pose proof (train_file_effects args w1)
          as [Hn _].
        destruct (train args w1) as [[a | e | m] w2]; simpl in *;
          try discriminate.
        intro H. exfalso. apply (Hn m). reflexivity.
      + discriminate.
      + destruct Hc as [Hc | Hc]; inversion Hc. intro H. inversion H.
        reflexivity.
    - pose proof (stylize_effects a w)
        as (_ & _ & _ & Hn & _).
      intro H. exfalso. apply (Hn n). exact H. }
  destruct (Hcode _ Hexit) as [H01 H0]. split; [exact H01 |].
  split; [exact H0 |].
  intros args ->. simpl. unfold bind.
  pose proof (check_paths_effects args w) as (_ & _ & Hret).
  destruct (check_paths args w) as [[[] | e | m] w1]; simpl in *.
  - destruct (train args w1) as [[a | e | m] w2] eqn:Et; simpl.
    + split.
      * split; [intros _; split; [reflexivity | exists a; reflexivity]
               | reflexivity].
      * intros _.
        destruct (checkpoint_reads_back _ _ Et) as (k' & tr' & Hl & _).
        exists k', tr'. exact Hl.
    + split; [| discriminate]. split; [discriminate |].
      intros (_ & a & Ha). discriminate.
    + split; [| discriminate]. split; [discriminate |].
      intros (_ & a & Ha). discriminate.
  - split; [| discriminate]. split; [discriminate |].
    intros (Hc & _). discriminate.
  - split; [| discriminate]. split; [discriminate |].
    intros (Hc & _). discriminate.
Qed.

(** ** One batch, in every case *)

Lemma train_batch_outcome args vgg total e batch_id xs r w :
  train_batch args vgg total e (batch_id, xs) r w
  = match step_state args vgg xs r with
    | inl err => (Raise err, w)
    | inr r' =>
        if log_interval args =? 0 then (Raise ZeroDivisionError, w)
        else if (batch_id + 1) mod log_interval args =? 0
        then (Return r',
              mkWorld (stdout w ++ [Mesg (mesg total e batch_id r' (ticks w))])
                (fs w) (S (ticks w)))
        else (Return r', w)
    end.
Proof.
  unfold train_batch, step_state.
  destruct (batch_input args xs) as [n x].
  destruct (losses _ _ _ _ _ _) as [err | [c sl]]; [reflexivity |].
  unfold bind at 1. simpl lift. unfold ret at 1.
  destruct (Adam_step _ _ _) as [o p].
  destruct sl as [z | s]; [reflexivity |].
  unfold bind at 1. simpl. unfold ret at 1. unfold log.
  destruct (log_interval args =? 0); [reflexivity |].
  destruct ((batch_id + 1) mod log_interval args =? 0); reflexivity.
Qed.

Lemma effective_more args :
  log_interval (effective args) = log_interval args
  /\ batch_size (effective args) = batch_size args
  /\ dataset (effective args) = dataset args
  /\ image_size (effective args) = image_size args.
Proof.
  unfold effective.
  destruct (truthy (cuda args) && negb cuda_is_available);
    repeat split; reflexivity.
Qed.

Lemma iter_concat (A : Type) (perm : nat -> list nat) (ds : list A) bs kw :
  List.concat (Loader.iter perm (Loader.make ds bs kw)) = ds.
Proof.
  unfold Loader.iter, Loader.sampler, Loader.make.
  cbn [Loader.dl_shuffle Loader.dl_dataset Loader.dl_batch_size].
  rewrite fetch_concat, batch_sampler_concat.
  exact (fetch_seq [] ds).
Qed.

(** X8.  With a log interval of 0 no batch is processed to the end:
    the remainder of line 119 divides by zero once the step has been
    taken, so a batch raises [ZeroDivisionError] (or what the step
    itself raised) and prints nothing; and a run over a dataset that is
    not empty, with at least one epoch, does not return, so that no
    checkpoint is saved: the file system is left as it was found or as
    [utils.init_vgg16] left it. *)
Theorem zero_log_interval args :
  log_interval args = 0 ->
  (forall vgg total e batch_id xs r w,
      train_batch args vgg total e (batch_id, xs) r w
      = match step_state args vgg xs r with
        | inl err => (Raise err, w)
        | inr _ => (Raise ZeroDivisionError, w)
        end)
  /\ (forall w,
         0 < epochs args ->
         (forall ds, ImageFolder (dataset args) (image_size args) = inr ds ->
                     ds <> []) ->
         exists err w',
           train args w = (Raise err, w')
           /\ (fs w' = fs w \/ fs w' = fetched args (fs w))).
Proof.
  intro Hz. split.
  - intros vgg0 total e batch_id xs r w.
    rewrite train_batch_outcome, Hz. simpl.
    destruct (step_state args vgg0 xs r); reflexivity.
  - intros w He Hds.
    assert (Hno : forall a w', train args w <> (Return a, w')).
    { intros a w' H. apply train_returns in H.
      destruct H as (-> & w1 & s & w2 & t & w3 & _ & Hi & Hr & _).
      destruct (effective_fields args) as (Ee & _).
      destruct (effective_more args) as (El & _ & Ed & Ei).
      destruct (@initialize_inv _ _ _ _ Hi) as (_ & (ds & Hd & Hl) & _).
      rewrite Ed, Ei in Hd. specialize (Hds ds Hd).
      unfold run_epochs in Hr. rewrite Ee in Hr.
      unfold range in Hr.
      destruct (Z.to_nat (epochs args)) as [| n] eqn:En; [lia |].
      simpl in Hr. bind_inv Hr. clear Hr.
      unfold train_epoch in Hstep. bind_inv Hstep. clear Hstep.
      unfold run_batches in Hstep0. rewrite Hl in Hstep0.
      unfold make_train_loader in Hstep0.
      pose proof (iter_concat (randperm (seed (effective args)) 0) ds
                    (batch_size (effective args))
                    (loader_kwargs (effective args))) as Hc.
      destruct (Loader.iter _ _) as [| b bs]; [simpl in Hc; congruence |].
      unfold enumerate in Hstep0. cbn [enumerate_from for_each] in Hstep0.
      bind_inv Hstep0.
      rewrite train_batch_outcome, El, Hz in Hstep. simpl in Hstep.
      destruct (step_state _ _ _ _); discriminate. }
    pose proof (train_file_effects args w) as (Hn & Hraise & _).
    destruct (train args w) as [[a | err | n] w'] eqn:Et.
    + exfalso. apply (Hno a w'). reflexivity.
    + exists err, w'. split; [reflexivity |]. apply (Hraise err). reflexivity.
    + exfalso. apply (Hn n). reflexivity.
Qed.

(** ** A pass over the loader *)

Lemma step_state_fields args vgg xs r r' :
  step_state args vgg xs r = inr r' ->
  count r' = count r + Z.of_nat (List.length xs)
  /\ training (transformer (trainer r')) = training (transformer (trainer r))
  /\ device (transformer (trainer r')) = device (transformer (trainer r)).
Proof.
  unfold step_state, batch_input.
  destruct (losses _ _ _ _ _ _) as [err | [c sl]]; simpl; [discriminate |].
  destruct (Adam_step _ _ _) as [o p].
  destruct sl as [z | s]; simpl; [discriminate |].
  intro H. inversion H; subst; simpl. rewrite length_map.
  repeat split.
Qed.

Lemma multiples_step li i :
  0 < li -> 0 <= i ->
  (i + 1) / li - i / li = if (i + 1) mod li =? 0 then 1 else 0.
Proof.
  intros Hli Hi.
  assert (Hne : li <> 0) by lia.
  pose proof (Z.div_mod (i + 1) li Hne) as H1.
  pose proof (Z.div_mod i li Hne) as H0.
  pose proof (Z.mod_pos_bound (i + 1) li Hli) as B1.
  pose proof (Z.mod_pos_bound i li Hli) as B0.
  destruct ((i + 1) mod li =? 0) eqn:E.
  - apply Z.eqb_eq in E. nia.
  - apply Z.eqb_neq in E. nia.
Qed.

Lemma pass_trace args vgg total e batches :
  0 < log_interval args ->
  forall i r w r' w',
    0 <= i ->
    for_each (enumerate_from i batches) (train_batch args vgg total e) r w
    = (Return r', w') ->
    count r' = count r + Z.of_nat (List.length (List.concat batches))
    /\ training (transformer (trainer r'))
       = training (transformer (trainer r))
    /\ device (transformer (trainer r')) = device (transformer (trainer r))
    /\ exists new,
         stdout w' = stdout w ++ map Mesg new
         /\ Z.of_nat (List.length new)
            = (i + Z.of_nat (List.length batches)) / log_interval args
              - i / log_interval args
         /\ Forall (fun m => log_epoch m = e + 1 /\ log_total m = total) new.
Proof.
  intro Hli. induction batches as [| xs batches IH];
    intros i r w r' w' Hi Hrun.
  - simpl in Hrun. unfold ret in Hrun. inversion Hrun; subst.
    simpl. split; [lia |]. split; [reflexivity |]. split; [reflexivity |].
    exists []. simpl. rewrite app_nil_r, Z.add_0_r.
    split; [reflexivity |]. split; [lia | constructor].
  - cbn [enumerate_from for_each] in Hrun. bind_inv Hrun.
    rewrite train_batch_outcome in Hstep.
    destruct (step_state args vgg xs r) as [err | r1] eqn:Es;
      [discriminate |].
    assert (Hz : (log_interval args =? 0) = false) by (apply Z.eqb_neq; lia).
    rewrite Hz in Hstep.
    destruct (step_state_fields _ _ _ _ Es) as (Hc & Ht & Hd).
    assert (Hi1 : 0 <= i + 1) by lia.
    specialize (IH (i + 1) a w0 r' w' Hi1 Hrun).
    destruct IH as (Hc' & Ht' & Hd' & new & Hout & Hlen & Hall).
    pose proof (multiples_step Hli Hi) as Hm.
    assert (Hn : Z.of_nat (List.length (xs :: batches))
                 = Z.of_nat (List.length batches) + 1)
      by (simpl List.length; lia).
    rewrite Hn.
    replace (i + (Z.of_nat (List.length batches) + 1))
      with (i + 1 + Z.of_nat (List.length batches)) by lia.
    destruct ((i + 1) mod log_interval args =? 0);
      inversion Hstep; subst a w0; clear Hstep.
    + repeat split.
      * rewrite Hc', Hc. simpl List.concat. rewrite length_app. lia.
      * congruence.
      * congruence.
      * exists (mesg total e i r1 (ticks w) :: new).
        simpl in Hout. rewrite <- app_assoc in Hout. simpl in Hout.
        repeat split.
        -- exact Hout.
        -- simpl List.length. lia.
        -- constructor; [split; reflexivity | exact Hall].
    + repeat split.
      * rewrite Hc', Hc. simpl List.concat. rewrite length_app. lia.
      * congruence.
      * congruence.
      * exists new. repeat split; [exact Hout | lia | exact Hall].
Qed.

(** X9.  With a positive log interval, an epoch that runs to its end
    has counted every item of the dataset once ([count] ends at
    [len(train_dataset)]), has printed one log line for every
    [log_interval] batches and nothing else, each line with the 1-based
    epoch number and the dataset size, and leaves the transformer on
    its device and in training mode. *)
Theorem epoch_counts_and_logs args vgg (ds : list (Image * Z)) e t w t' w' :
  0 < log_interval args ->
  train_epoch args vgg (make_train_loader args ds) e t w = (Return t', w') ->
  let batches :=
    Loader.iter (randperm (seed args) e) (make_train_loader args ds) in
  exists r new,
    run_batches args vgg (Z.of_nat (List.length ds)) e (enumerate batches)
      (start_epoch t) w
    = (Return r, w')
    /\ t' = trainer r
    /\ count r = Z.of_nat (List.length ds)
    /\ stdout w' = stdout w ++ map Mesg new
    /\ Z.of_nat (List.length new)
       = Z.of_nat (List.length batches) / log_interval args
    /\ Forall (fun m => log_epoch m = e + 1
                        /\ log_total m = Z.of_nat (List.length ds)) new
    /\ training (transformer t') = true
    /\ device (transformer t') = device (transformer t).
Proof.
  intros Hli Hrun batches. unfold train_epoch in Hrun. bind_inv Hrun.
  unfold ret in Hrun. inversion Hrun; subst t' w0. clear Hrun.
  change (Loader.dl_dataset (make_train_loader args ds)) with ds in Hstep.
  fold batches in Hstep.
  pose proof Hstep as Hp. unfold run_batches, enumerate in Hp.
  pose proof (@pass_trace args vgg (Z.of_nat (List.length ds)) e batches
                Hli 0 _ _ _ _ (Z.le_refl 0) Hp) as Hq.
  clear Hp. rename Hq into Hp.
  destruct Hp as (Hc & Ht & Hd & new & Hout & Hlen & Hall).
  exists a, new. split; [exact Hstep |]. split; [reflexivity |].
  assert (Hcat : List.concat batches = ds) by apply iter_concat.
  rewrite Hcat in Hc. simpl in Hc, Ht, Hd, Hlen.
  rewrite Zdiv_0_l, Z.sub_0_r in Hlen.
  repeat split; assumption.
Qed.

(** ** Bounds of the loss step *)

Lemma for_sum_raises A S (body : A -> S -> exn + S) l a :
  In a l ->
  (forall s, exists err, body a s = inl err) ->
  forall s, exists err, for_sum l body s = inl err.
Proof.
  intros Hin Hbad. induction l as [| b l IH]; [contradiction |].
  intro s. simpl. destruct Hin as [-> | Hin].
  - destruct (Hbad s) as [err ->]. exists err. reflexivity.
  - destruct (body b s) as [err | s1]; simpl.
    + exists err. reflexivity.
    + apply IH. exact Hin.
Qed.

(** X10.  The loss step raises on what its indices and slices cannot
    serve: [IndexError] when the extractor gives fewer than two layers
    (line 102 reads layer 1), and some exception when the batch has
    more items than a style Gram has rows, since the slice of line 110
    is then shorter than the Gram batch it is compared with. *)
Theorem loss_step_bounds layers args vgg gs n x tr :
  ((List.length (snd (extract vgg x tr)) < 2)%nat ->
   losses args vgg gs n x tr = inl IndexError)
  /\ (Shapes layers ->
      List.length gs = layers ->
      n = List.length (data x) ->
      (exists g, In g gs /\ (List.length (data g) < n)%nat) ->
      exists err, losses args vgg gs n x tr = inl err).
Proof.
  split.
  - intro H. unfold losses. destruct (extract vgg x tr) as [fy fxc].
    cbn [snd] in H. unfold content_mse, getitem.
    destruct (nth_error fxc 1) as [f |] eqn:E; [| reflexivity].
    exfalso. assert (nth_error fxc 1 <> None) as N by (rewrite E; discriminate).
    apply nth_error_Some in N. lia.
  - intros shapes Hlen Hn (g & Hg & Hshort).
    destruct (@content_mse_value layers shapes vgg x tr)
      as (fy1 & fxc1 & _ & _ & Hc).
    destruct (@extract_shapes layers shapes vgg x tr) as (Ly & _ & Ry & _).
    unfold losses. destruct (extract vgg x tr) as [fy fxc].
    cbn [fst snd] in *. rewrite Hc. simpl.
    destruct (In_nth_error _ _ Hg) as [m Em].
    assert (Hm : (m < List.length fy)%nat).
    { rewrite Ly, <- Hlen. apply nth_error_Some. rewrite Em. discriminate. }
    destruct (@getitem_some _ fy m Hm) as (f & Ef & If).
    destruct (@for_sum_raises _ _
                (style_term args gs n fy) (seq 0 (List.length fy)) m)
      with (s := (inl fzero : float + Loss)) as [err Herr].
    + apply in_seq. lia.
    + intro s. unfold style_term, style_mse, getitem. rewrite Em, Ef. simpl.
      unfold mse_loss. simpl.
      rewrite (gram_rows shapes), length_firstn, (Ry _ If), <- Hn.
      rewrite Nat.min_r by lia.
      destruct (Nat.eqb n (List.length (data g))) eqn:Eq.
      * apply Nat.eqb_eq in Eq. lia.
      * eexists. reflexivity.
    + rewrite Herr. exists err. reflexivity.
Qed.

(** ** From training to stylizing *)

(** X11.  The checkpoint of a completed run serves [stylize]: given as
    the model, it is loaded and applied in inference mode, and the
    picture written is the first row of its forward pass on the
    preprocessed content image. *)
Theorem stylize_after_train layers args w a w' :
  Shapes layers ->
  train args w = (Return a, w') ->
  exists k tr,
    training tr = false
    /\ forall ev img,
         model ev = save_model_path args k ->
         tensor_load_rgbimage (content_image ev) None (content_scale ev)
         = inr img ->
         save_error (output_image ev) = None ->
         exists out0,
           nth_error
             (transformer_forward (params tr) false (preprocess_batch [img]))
             0 = Some out0
           /\ stylize ev w'
              = (Return tt,
                 mkWorld (stdout w')
                   (mkFS (dirs (fs w'))
                      ((output_image ev, Picture out0) :: files (fs w')))
                   (ticks w')).
Proof.
  intros shapes H.
  destruct (@checkpoint_reads_back args w a w' H) as (k & tr & Hl & Ht & _).
  exists k, tr. split; [exact Ht |].
  intros ev img Hm Hi Hs. rewrite <- Hm in Hl.
  destruct (@stylize_value layers ev w' img tr shapes Hi Hl Hs)
    as (out0 & Hn & Hst & _).
  rewrite Ht in Hn. exists out0. split; [exact Hn | exact Hst].
Qed.

(** ** The name of the checkpoint *)

Lemma replace_space_length s :
  String.length (replace_space s) = String.length s.
Proof. induction s as [| c s IH]; simpl; [reflexivity | rewrite IH; reflexivity]. Qed.

Lemma replace_space_get s : forall n,
  get n (replace_space s) <> Some " "%char.
Proof.
  induction s as [| c s IH]; intro n; simpl; [discriminate |].
  destruct n as [| n]; [| apply IH].
  destruct (Ascii.eqb c " ") eqn:E; [discriminate |].
  intro H. inversion H; subst. rewrite Ascii.eqb_refl in E. discriminate.
Qed.

Lemma prefix_append (a b : string) : String.prefix a (a ++ b) = true.
Proof.
  induction a as [| c a IH]; simpl.
  - destruct b; reflexivity.
  - destruct (ascii_dec c c) as [_ | N]; [exact IH | contradiction].
Qed.

(** X12.  The checkpoint is saved inside the save directory, whatever
    the clock shows: its path starts with [save_model_dir], because the
    file name starts with [epoch_] and so is never taken for an
    absolute path.  The time stamp keeps its length in the name and
    has no blank left. *)
Theorem checkpoint_path args k :
  String.prefix (save_model_dir args) (save_model_path args k) = true
  /\ String.length (replace_space (time_ctime k))
     = String.length (time_ctime k)
  /\ forall n, get n (replace_space (time_ctime k)) <> Some " "%char.
Proof.
  split; [| split; [apply replace_space_length | apply replace_space_get]].
  unfold save_model_path, save_model_filename, path_join.
  cbn [append].
  destruct ((save_model_dir args =? "")%string
            || ends_with_slash (save_model_dir args)); apply prefix_append.
Qed.

(** X13.  The banner is printed after the backend is chosen: on a
    machine without CUDA the line [CUDA:] shows 0, whatever was asked
    for, and it is the warning, when there is one, that comes first. *)
Theorem banner_shows_chosen_backend args w :
  cuda_is_available = false ->
  exists a w1,
    preamble args w = (Return a, w1)
    /\ cuda a = 0
    /\ In (Print [VStr "CUDA:"; VInt 0]) (stdout w1)
    /\ (truthy (cuda args) = true ->
        exists rest, stdout w1 = stdout w ++ warning :: rest).
Proof.
  intro Hc. unfold preamble, select_backend. rewrite Hc.
  destruct (truthy (cuda args)) eqn:Et; simpl andb; cbv iota.
  - eexists. eexists. unfold banner. run.
    split; [reflexivity |]. split; [reflexivity |]. split.
    + cbn [cuda set_cuda]. rewrite !in_app_iff. simpl. tauto.
    + intros _. rewrite <- !app_assoc. eexists. reflexivity.
  - assert (E0 : cuda args = 0).
    { unfold truthy in Et. apply negb_false_iff, Z.eqb_eq in Et. exact Et. }
    eexists. eexists. unfold banner. run.
    split; [reflexivity |]. split; [exact E0 |]. split.
    + rewrite E0, !in_app_iff. simpl. tauto.
    + discriminate.
Qed.

(** ** The seed *)

(** X14.  A seed outside [0, 2**32 - 1] stops [train] at line 20:
    [np.random.seed] raises [ValueError] before anything is printed,
    fetched or saved, also when CUDA is asked for and absent, so that
    no warning is shown; and a run that returns had a seed in that
    range. *)
Theorem rejected_seed_stops_train args w :
  ~ seed_accepted args ->
  train args w
  = (Raise (ValueError "Seed must be between 0 and 2**32 - 1"), w)
  /\ forall a w', train args w <> (Return a, w').
Proof.
  intro H. rewrite (@train_bad_seed args w H). split; [reflexivity |].
  discriminate.
Qed.

End Properties.

(** * Runs on the small machine *)

#[local] Existing Instance Mock.torch.

Lemma float_differ (a b : float) :
  negb (PrimFloat.eqb a b) && PrimFloat.eqb a a = true -> a <> b.
Proof.
  intros H E. rewrite <- E in H.
  destruct (PrimFloat.eqb a a); discriminate H.
Qed.

Lemma mock_shapes : Shapes 2.
Proof.
  constructor; simpl.
  - lia.
  - reflexivity.
  - intros s x f [<- | [<- | []]]; apply length_map.
  - intro f. apply length_map.
  - intros p b x. apply length_map.
  - intro x. apply length_map.
  - reflexivity.
  - intros i n Hn. apply Z.ltb_lt in Hn. rewrite Hn. reflexivity.
Qed.



(** The world the set-up leaves: the weights are fetched. *)
Definition mock_ready : World file :=
  Eval vm_compute in snd (initialize Mock.args Mock.world).

Lemma mock_initialize :
  initialize Mock.args Mock.world = (Return Mock.setup, mock_ready).
Proof. vm_compute. reflexivity. Qed.

Lemma mock_seed : seed_accepted Mock.args.
Proof. unfold seed_accepted. simpl. lia. Qed.

Lemma mock_batches :
  enumerate (Loader.iter (randperm (seed Mock.args) 0)
               (train_loader Mock.setup))
  = Mock.batches.
Proof. vm_compute. reflexivity. Qed.

(** The worlds and states the runs end in. *)
Definition mock_final : World file :=
  Eval vm_compute in snd (train Mock.args Mock.world).

Definition mock_final_cuda : World file :=
  Eval vm_compute in snd (train Mock.args_cuda Mock.world).

Definition mock_trained : Trainer :=
  Eval vm_compute in
    match run_epochs Mock.args Mock.setup Mock.world with
    | (Return t, _) => t
    | _ => start Mock.setup
    end.

Definition mock_logged : World file :=
  Eval vm_compute in snd (run_epochs Mock.args Mock.setup Mock.world).

Definition mock_epoch (k : nat) : Running :=
  match run_batches Mock.args (vgg Mock.setup) 3 0 (firstn k Mock.batches)
          (start_epoch (start Mock.setup)) Mock.world with
  | (Return r, _) => r
  | _ => start_epoch (start Mock.setup)
  end.

Lemma mock_train : train Mock.args Mock.world = (Return Mock.args, mock_final).
Proof. vm_compute. reflexivity. Qed.

Lemma mock_train_cuda :
  train Mock.args_cuda Mock.world = (Return Mock.args, mock_final_cuda).
Proof. vm_compute. reflexivity. Qed.

Lemma mock_run_epochs :
  for_each (range 1)
    (train_epoch Mock.args (vgg Mock.setup) (train_loader Mock.setup))
    (start Mock.setup) Mock.world
  = (Return mock_trained, mock_logged).
Proof. vm_compute. reflexivity. Qed.

Lemma mock_run_batches k :
  (k <= 2)%nat ->
  exists w',
    run_batches Mock.args (vgg Mock.setup) 3 0 (firstn k Mock.batches)
      (start_epoch (start Mock.setup)) Mock.world
    = (Return (mock_epoch k), w').
Proof.
  intro H. destruct k as [| [| [| k]]]; [| | | lia];
    eexists; vm_compute; reflexivity.
Qed.

(** ** The claims at concrete inputs *)

Lemma running_sums_of_weighted_losses_witness :
  exists r,
    agg_content_loss r
    = fsum (map (fun s => item (step_content s))
              (epoch_steps Mock.args (vgg Mock.setup) 3 0 Mock.batches
                 (start_epoch (start Mock.setup)) Mock.world))
    /\ fdiv (agg_content_loss r) (float_of_int 2)
       = mean (map (fun s => item (step_content s))
                 (epoch_steps Mock.args (vgg Mock.setup) 3 0 Mock.batches
                    (start_epoch (start Mock.setup)) Mock.world)).
Proof.
  destruct (mock_run_batches (k := 2) (le_n 2)) as [w' H].
  exists (mock_epoch 2).
  pose proof (@running_sums_of_weighted_losses Mock.torch _ _ _ _ _ _ _ _ _ H)
    as P.
  cbv zeta in P. destruct P as (_ & _ & Hc & _ & Hm).
  split; [exact Hc | exact Hm].
Defined.

(** C1 as stated fails: with a content weight of 2 the accumulator
    after the first batch is not the sum of the unweighted MSE values. *)
Lemma running_sums_not_of_unweighted_losses :
  agg_content_loss (mock_epoch 1)
  <> fsum (map (fun s => item (step_mse s))
             (epoch_steps Mock.args (vgg Mock.setup) 3 0
                (firstn 1 Mock.batches)
                (start_epoch (start Mock.setup)) Mock.world)).
Proof. apply float_differ. vm_compute. reflexivity. Qed.






Lemma partial_batch_is_sliced_witness :
  (forall m a g,
      nth_error
        (stylized_activations (vgg Mock.setup) 42 true
           (data (snd (batch_input Mock.args Mock.last_batch)))) m = Some a ->
      nth_error (gram_style (start Mock.setup)) m = Some g ->
      List.length (firstn 1 (data g)) = 1%nat
      /\ style_mse (gram_style (start Mock.setup)) 1
           (fst (extract (vgg Mock.setup)
                   (snd (batch_input Mock.args Mock.last_batch))
                   (transformer (start Mock.setup)))) m
         = inr (mse_gram (gram_matrix a) (firstn 1 (data g))))
  /\ exists content_loss style_loss,
       losses Mock.args (vgg Mock.setup) (gram_style (start Mock.setup)) 1
         (snd (batch_input Mock.args Mock.last_batch))
         (transformer (start Mock.setup))
       = inr (content_loss, inr style_loss)
       /\ style_sum Mock.args
            (gram_mses 1 (gram_style (start Mock.setup))
               (stylized_activations (vgg Mock.setup) 42 true
                  (data (snd (batch_input Mock.args Mock.last_batch)))))
          = inr style_loss.
Proof.
  refine (proj2 (proj2
    (@partial_batch_is_sliced Mock.torch 2 Mock.args (vgg Mock.setup)
       (gram_style (start Mock.setup)) Mock.last_batch
       (transformer (start Mock.setup)) mock_shapes _ _ _))).
  - reflexivity.
  - vm_compute. reflexivity.
  - simpl. lia.
Defined.

Lemma batches_in_dataset_order_witness :
  List.concat
    (Loader.iter (randperm 42 0)
       (make_train_loader Mock.args Mock.images))
  = Mock.images.
Proof.
  refine (proj1 (proj2
    (@batches_in_dataset_order Mock.torch Mock.args Mock.images
       (randperm 42 0) _))).
  reflexivity.
Defined.

(** C4 as stated fails: the generator would draw the items in reverse,
    and the pass over the loader does not follow it. *)
Lemma batches_not_shuffled :
  Loader.dl_shuffle (make_train_loader Mock.args Mock.images)
  = false
  /\ Loader.iter (randperm 42 0)
       (make_train_loader Mock.args Mock.images)
     <> map (Loader.fetch Mock.images)
          (Loader.batch_sampler 2 [] (randperm 42 0 3)).
Proof. split; [reflexivity | vm_compute; discriminate]. Qed.

Lemma train_assigns_only_cuda_witness :
  Mock.args = set_cuda Mock.args_cuda 0.
Proof.
  exact (@train_assigns_only_cuda Mock.torch Mock.args_cuda Mock.world
           Mock.args mock_final_cuda mock_train_cuda).
Defined.

(** C5 as stated fails: asked for CUDA on a machine without it, [train]
    leaves a configuration that is not the one it was given. *)
Lemma train_changes_the_configuration :
  train Mock.args_cuda Mock.world = (Return Mock.args, mock_final_cuda)
  /\ Mock.args <> Mock.args_cuda.
Proof. split; [exact mock_train_cuda | discriminate]. Qed.

Lemma gram_style_held_constant_witness :
  style_target Mock.args (vgg Mock.setup) = inr (gram_style mock_trained).
Proof.
  exact (proj1 (@gram_style_held_constant Mock.torch Mock.args Mock.world
                  Mock.setup mock_ready (range 1) Mock.world mock_trained
                  mock_logged mock_initialize mock_run_epochs)).
Defined.

Lemma cuda_fallback_witness :
  train Mock.args_cuda Mock.world
  = train (set_cuda Mock.args_cuda 0)
      (mkWorld (stdout Mock.world ++ [warning]) (fs Mock.world)
         (ticks Mock.world)).
Proof.
  exact (proj1 (@cuda_fallback Mock.torch Mock.args_cuda Mock.world
                  eq_refl eq_refl mock_seed)).
Defined.

Lemma checkpoint_name_witness :
  exists k tr rest,
    files (fs mock_final)
    = (path_join (save_model_dir Mock.args)
         (save_model_filename Mock.args (time_ctime k)), Checkpoint tr)
      :: rest
    /\ contains (save_model_filename Mock.args (time_ctime k)) "epoch_1".
Proof.
  destruct (@checkpoint_name Mock.torch Mock.args Mock.world Mock.args
              mock_final mock_train)
    as (k & tr & rest & Hf & _ & _ & _ & _ & _ & H1 & _).
  exists k, tr, rest. split; [exact Hf | exact (H1 eq_refl)].
Defined.

Lemma exit_code_one_witness :
  main (TrainCommand Mock.args_ro) Mock.world
  = (Exit 1,
     mkWorld [Print [VExn (OSError "Read-only file system")]]
       (mkFS ["vgg"] []) 0).
Proof.
  exact (proj1 (proj2 (proj2 (@exit_code_one Mock.torch Mock.world))
                  Mock.args_ro "Read-only file system"
                  (or_intror eq_refl) eq_refl eq_refl)).
Defined.

Lemma zero_epochs_still_saves_witness :
  exists (w2 : World file) rest,
    train Mock.args_idle Mock.world
    = (Return Mock.args_idle,
       mkWorld (stdout w2 ++ [done])
         (mkFS []
            [(save_model_path Mock.args_idle (ticks w2),
              Checkpoint (mkTransformer 42 false CPU));
             ("vgg/vgg16.weight", Weights 3)])
         (S (ticks w2)))
    /\ save_model_filename Mock.args_idle (time_ctime (ticks w2))
       = ("epoch_0_" ++ rest)%string.
Proof.
  destruct (preamble_returns Mock.args_idle Mock.world) as [w1 Hp].
  destruct (preamble_prints _ _ Hp) as (Hfs & _).
  assert (Hi : initialize Mock.args_idle w1
               = (Return (mkSetup (train_loader Mock.setup) (vgg Mock.setup)
                            (start Mock.setup)),
                  mkWorld (stdout w1)
                    (mkFS [] [("vgg/vgg16.weight", Weights 3)]) (ticks w1))).
  { destruct w1 as [out f k]. simpl in Hfs. subst f. vm_compute.
    reflexivity. }
  destruct (@zero_epochs_still_saves Mock.torch Mock.args_idle Mock.world
              _ w1 _ _ eq_refl mock_seed Hp Hi eq_refl)
    as (_ & Ht & _ & rest & Hn).
  eexists. exists rest. split; [exact Ht | exact Hn].
Defined.

(** ** Further runs *)

Lemma mock_train_epoch :
  train_epoch Mock.args (vgg Mock.setup)
    (make_train_loader Mock.args Mock.images) 0 (start Mock.setup) Mock.world
  = (Return mock_trained, mock_logged).
Proof. vm_compute. reflexivity. Qed.

Lemma checkpoint_round_trip_witness :
  exists k tr,
    torch_load (save_model_path Mock.args k) mock_final
    = (Return tr, mock_final)
    /\ training tr = false
    /\ device tr = CPU.
Proof.
  exact (@checkpoint_round_trip Mock.torch Mock.args Mock.world Mock.args
           mock_final mock_train).
Defined.

Lemma stylize_returns_witness :
  exists k tr out0,
    torch_load (save_model_path Mock.args k) mock_final
    = (Return tr, mock_final)
    /\ stylize (mkEvalArgs "in.jpg" None "out.jpg"
                  (save_model_path Mock.args k)) mock_final
       = (Return tt,
          mkWorld (stdout mock_final)
            (mkFS (dirs (fs mock_final))
               (("out.jpg", Picture out0) :: files (fs mock_final)))
            (ticks mock_final)).
Proof.
  destruct (@checkpoint_reads_back Mock.torch Mock.args Mock.world Mock.args
              mock_final mock_train) as (k & tr & Hl & _).
  destruct (@stylize_returns Mock.torch 2
              (mkEvalArgs "in.jpg" None "out.jpg"
                 (save_model_path Mock.args k))
              mock_final 7 tr mock_shapes eq_refl Hl eq_refl)
    as (out0 & _ & Hs & _).
  exists k, tr, out0. split; [exact Hl | exact Hs].
Defined.


Lemma zero_log_interval_witness :
  exists err w',
    train Mock.args_nolog Mock.world = (Raise err, w')
    /\ (fs w' = fs Mock.world
        \/ fs w' = fetched Mock.args_nolog (fs Mock.world)).
Proof.
  apply (proj2 (@zero_log_interval Mock.torch Mock.args_nolog eq_refl)).
  - reflexivity.
  - intros ds H. simpl in H. injection H as <-. discriminate.
Defined.

Lemma epoch_counts_and_logs_witness :
  exists r new,
    mock_trained = trainer r
    /\ count r = 3
    /\ stdout mock_logged = stdout Mock.world ++ map Mesg new
    /\ Z.of_nat (List.length new) = 2 / log_interval Mock.args.
Proof.
  destruct (@epoch_counts_and_logs Mock.torch Mock.args (vgg Mock.setup)
              Mock.images 0 (start Mock.setup) Mock.world mock_trained
              mock_logged eq_refl mock_train_epoch)
    as (r & new & _ & Ht & Hc & Ho & Hn & _).
  exists r, new. repeat split; assumption.
Defined.

Lemma loss_step_bounds_witness :
  exists err,
    losses Mock.args (vgg Mock.setup) (gram_style (start Mock.setup)) 3
      (snd (batch_input Mock.args Mock.images))
      (transformer (start Mock.setup))
    = inl err.
Proof.
  refine (proj2
    (@loss_step_bounds Mock.torch 2 Mock.args (vgg Mock.setup)
       (gram_style (start Mock.setup)) 3
       (snd (@batch_input Mock.torch Mock.args Mock.images))
       (transformer (start Mock.setup))) mock_shapes eq_refl eq_refl _).
  exists (mkVariable [324; 324] false true). split.
  - left. reflexivity.
  - simpl. lia.
Defined.

Lemma stylize_after_train_witness :
  exists k out0,
    stylize (mkEvalArgs "in.jpg" None "out.jpg"
               (save_model_path Mock.args k)) mock_final
    = (Return tt,
       mkWorld (stdout mock_final)
         (mkFS (dirs (fs mock_final))
            (("out.jpg", Picture out0) :: files (fs mock_final)))
         (ticks mock_final)).
Proof.
  destruct (@stylize_after_train Mock.torch 2 Mock.args Mock.world Mock.args
              mock_final mock_shapes mock_train)
    as (k & tr & _ & H).
  destruct (H (mkEvalArgs "in.jpg" None "out.jpg"
                 (save_model_path Mock.args k)) 7 eq_refl eq_refl eq_refl)
    as (out0 & _ & Hs).
  exists k, out0. exact Hs.
Defined.

Lemma banner_shows_chosen_backend_witness :
  exists a w1,
    preamble Mock.args_cuda Mock.world = (Return a, w1)
    /\ cuda a = 0
    /\ In (Print [VStr "CUDA:"; VInt 0]) (stdout w1)
    /\ exists rest, stdout w1 = stdout Mock.world ++ warning :: rest.
Proof.
  destruct (@banner_shows_chosen_backend Mock.torch Mock.args_cuda Mock.world
              eq_refl)
    as (a & w1 & Hp & Hc & Hi & Hw).
  exists a, w1. repeat split; try assumption. exact (Hw eq_refl).
Defined.

Lemma rejected_seed_stops_train_witness :
  train Mock.args_bad_seed Mock.world
  = (Raise (ValueError "Seed must be between 0 and 2**32 - 1"), Mock.world).
Proof.
  refine (proj1 (@rejected_seed_stops_train Mock.torch Mock.args_bad_seed
                   Mock.world _)).
  unfold seed_accepted. simpl. lia.
Defined.
